(** * forecast_script.py: orchestration of per-column forecasts

    A shallow embedding of [forecast_script.py].  The script walks the
    tables of a ClickHouse database, (re)creates one forecast table per
    source table and fills it with the predictions of a Prophet model
    fitted per numeric column.

    Conventions of the embedding:
    - a Python [str] is a Rocq [string], one [ascii] per character (code
      points below 256);
    - a calendar date is a day number in [Z]; forecast values are an
      abstract type [V] that is only stored and printed;
    - the database client, the Prophet model and the pandas statements
      that post-process a predicted frame are oracles: records of
      functions whose answers may be an exception; the client sees the
      statements issued so far;
    - the five module-level lists, the statements sent to the client and
      the records written to the log form the run state, threaded through
      a state-and-exception monad. *)

From Stdlib Require Import Ascii ZArith Lia.
From stdpp Require Import base decidable option list gmap strings pretty.

Local Open Scope Z_scope.

(** ** Python string primitives *)

Module Py.

(** [s.startswith(p)] *)
Fixpoint startswith (p s : string) : bool :=
  match p, s with
  | EmptyString, _ => true
  | String a p', String b s' => bool_decide (a = b) && startswith p' s'
  | String _ _, EmptyString => false
  end.

(** [s[n:]] for [n >= 0] *)
Fixpoint slice_from (n : nat) (s : string) : string :=
  match n, s with
  | O, _ => s
  | S n', String _ s' => slice_from n' s'
  | S _, EmptyString => EmptyString
  end.

(** [sub in s] on two strings: [sub] occurs somewhere in [s]. *)
Fixpoint contains (sub s : string) : bool :=
  startswith sub s ||
  match s with
  | EmptyString => false
  | String _ s' => contains sub s'
  end.

(** [str.isspace] on one character with a code point below 256. *)
Definition isspace (c : ascii) : bool :=
  let n := N_of_ascii c in
  ((9 <=? n) && (n <=? 13) || (28 <=? n) && (n <=? 32)
   || (n =? 133) || (n =? 160))%N.

Fixpoint lstrip (s : string) : string :=
  match s with
  | String c s' => if isspace c then lstrip s' else s
  | EmptyString => EmptyString
  end.

Definition rstrip (s : string) : string := String.rev (lstrip (String.rev s)).

(** [s.strip()] *)
Definition strip (s : string) : string := rstrip (lstrip s).

(** [sep.join(ls)] *)
Fixpoint join (sep : string) (ls : list string) : string :=
  match ls with
  | [] => ""
  | [x] => x
  | x :: ls' => x +:+ sep +:+ join sep ls'
  end.

(** [s.split(c)] for a one-character separator [c]: the pieces between
    the occurrences of [c]; never empty, [""] splits into [[""]]. *)
Fixpoint split (c : ascii) (s : string) : list string :=
  match s with
  | EmptyString => [""]
  | String a s' =>
      if bool_decide (a = c) then "" :: split c s'
      else match split c s' with
           | w :: ws => String a w :: ws
           | [] => [String a ""]
           end
  end.

(** [s.split(sep, 1)[-1]] for a one-character separator: what follows
    the first separator, or all of [s] when there is none. *)
Fixpoint after_first (c : ascii) (s : string) : option string :=
  match s with
  | EmptyString => None
  | String a s' => if bool_decide (a = c) then Some s' else after_first c s'
  end.

Definition split1_last (c : ascii) (s : string) : string :=
  default s (after_first c s).

(** One character given by its code point, for text outside ASCII. *)
Definition chr (n : N) : string := String (ascii_of_N n) "".

End Py.

(** ** Names of forecast tables *)

(** The name computed at the head of [create_forecast_table]. *)
Definition create_forecast_table_name (db_name table_name : string) : string :=
  if Py.startswith "bucket_" (Py.strip table_name)
  then db_name +:+ ".bucket_forecast_" +:+ Py.slice_from 7 table_name
  else db_name +:+ ".bucket_forecast_" +:+ table_name.

(** The name computed at the head of [forecast_table], the target of the
    insert. *)
Definition forecast_table_name (db_name table_name : string) : string :=
  db_name +:+ ".bucket_forecast_" +:+ Py.slice_from 7 table_name.

(** The naming rule in the words of the specification: the stem is the
    source name with one leading [bucket_] removed when it is there. *)
Definition spec_stem (table_name : string) : string :=
  if Py.startswith "bucket_" table_name
  then Py.slice_from 7 table_name else table_name.

Definition spec_forecast_name (table_name : string) : string :=
  "bucket_forecast_" +:+ spec_stem table_name.

(** ** Run state, exceptions and the monad of the script *)

Inductive Level := DEBUG | INFO | WARNING | ERROR.

Global Instance Level_eq_dec : EqDecision Level.
Proof. solve_decision. Defined.

(** [logging.basicConfig(level=logging.INFO, ...)]: records below INFO
    are dropped. *)
Definition level_enabled (lvl : Level) : bool :=
  match lvl with DEBUG => false | _ => true end.

(** The module-level lists of the script, the statements passed to
    [client.query] (oldest first) and the records handed to the log
    handler (oldest first). *)
Record RunState := mkRunState {
  successful_tables : list string;
  new_tables : list string;
  updated_tables : list string;
  failed_tables : list string;
  skipped_tables : list string;
  queries : list string;
  log_records : list (Level * string)
}.

Definition initial_state : RunState := mkRunState [] [] [] [] [] [] [].

Inductive exn :=
  | Exception (e : string)
  | SystemExit (code : Z).

Inductive result (A : Type) :=
  | Ok (a : A)
  | Raise (e : exn).
Global Arguments Ok {A} a.
Global Arguments Raise {A} e.

(** What an external call gives back: a value, or an ordinary
    [Exception] with its message. *)
Inductive answer (A : Type) :=
  | Answer (a : A)
  | Error (e : string).
Global Arguments Answer {A} a.
Global Arguments Error {A} e.

Definition M (A : Type) : Type := RunState → result A * RunState.

Global Instance M_ret : MRet M := λ A a st, (Ok a, st).
Global Instance M_bind : MBind M := λ A B f m st,
  match m st with
  | (Ok a, st') => f a st'
  | (Raise e, st') => (Raise e, st')
  end.

Definition raise {A} (e : exn) : M A := λ st, (Raise e, st).

Definition append_successful (t : string) : M unit := λ st,
  (Ok (), mkRunState (successful_tables st ++ [t]) (new_tables st)
     (updated_tables st) (failed_tables st) (skipped_tables st)
     (queries st) (log_records st)).

Definition append_new (t : string) : M unit := λ st,
  (Ok (), mkRunState (successful_tables st) (new_tables st ++ [t])
     (updated_tables st) (failed_tables st) (skipped_tables st)
     (queries st) (log_records st)).

Definition append_updated (t : string) : M unit := λ st,
  (Ok (), mkRunState (successful_tables st) (new_tables st)
     (updated_tables st ++ [t]) (failed_tables st) (skipped_tables st)
     (queries st) (log_records st)).

Definition append_failed (t : string) : M unit := λ st,
  (Ok (), mkRunState (successful_tables st) (new_tables st)
     (updated_tables st) (failed_tables st ++ [t]) (skipped_tables st)
     (queries st) (log_records st)).

Definition append_skipped (t : string) : M unit := λ st,
  (Ok (), mkRunState (successful_tables st) (new_tables st)
     (updated_tables st) (failed_tables st) (skipped_tables st ++ [t])
     (queries st) (log_records st)).

(** [logging.<lvl>(msg)] *)
Definition logging (lvl : Level) (msg : string) : M unit := λ st,
  (Ok (), mkRunState (successful_tables st) (new_tables st)
     (updated_tables st) (failed_tables st) (skipped_tables st)
     (queries st)
     (if level_enabled lvl then log_records st ++ [(lvl, msg)]
      else log_records st)).

(** [client.query(q).result_set]: the statement is recorded, the oracle
    answers from the statements issued before it. *)
Definition client_query {A} (oracle : list string → string → answer A)
    (q : string) : M A := λ st,
  let st' := mkRunState (successful_tables st) (new_tables st)
     (updated_tables st) (failed_tables st) (skipped_tables st)
     (queries st ++ [q]) (log_records st) in
  match oracle (queries st) q with
  | Answer a => (Ok a, st')
  | Error e => (Raise (Exception e), st')
  end.

(** ** The external collaborators *)

(** The result sets of the database client, by kind of statement.  A
    catalog row is its first cell and the cells after it; a row of
    [DESCRIBE TABLE] is name, type and the five properties after them;
    [EXISTS TABLE] answers one number; a data row is its date and the
    cells of the selected columns. *)
Record Client (V : Type) := mkClient {
  show_tables : list string → string → answer (list (string * list string));
  describe_table :
    list string → string → answer (list (string * string * list string));
  exists_table : list string → string → answer Z;
  execute : list string → string → answer unit;
  select_rows : list string → string → answer (list (Z * list V))
}.
Global Arguments show_tables {V} _ _ _.
Global Arguments describe_table {V} _ _ _.
Global Arguments exists_table {V} _ _ _.
Global Arguments execute {V} _ _ _.
Global Arguments select_rows {V} _ _ _.

(** One row of the frame [predict] returns, restricted to the columns
    the script reads. *)
Record ForecastPoint (V : Type) := mkPoint {
  ds : Z;
  yhat : V;
  yhat_lower : V;
  yhat_upper : V
}.
Global Arguments mkPoint {V} _ _ _ _.
Global Arguments ds {V} _.
Global Arguments yhat {V} _.
Global Arguments yhat_lower {V} _.
Global Arguments yhat_upper {V} _.

(** The library calls inside the [try] block of [forecast_table], each of
    which can raise: the Prophet model as the script uses it ([fit] on a
    (ds, y) series, [make_future_dataframe(periods)], [predict] on a list
    of dates), and the pandas statements of lines 179-185 that turn the
    predicted frame into [export_data] for column [col]. *)
Record Prophet (V : Type) := mkProphet {
  Model : Type;
  fit : list (Z * option V) → answer Model;
  make_future_dataframe : Model → Z → answer (list Z);
  predict : Model → list Z → answer (list (ForecastPoint V));
  post_processing : string → list (ForecastPoint V) → answer unit
}.
Global Arguments Model {V} _.
Global Arguments fit {V} _ _.
Global Arguments make_future_dataframe {V} _ _ _.
Global Arguments predict {V} _ _ _.
Global Arguments post_processing {V} _ _ _.

(** ** Schema inspection *)

Definition nl : string := Py.chr 10.
Definition Uuml : string := Py.chr 220.
Definition uuml : string := Py.chr 252.
Definition ouml : string := Py.chr 246.

(** The script holds the skip substrings in a set and only asks whether
    some member occurs in a type, which does not depend on the order of
    iteration; they are listed here in the order of the source text. *)
Definition SKIP_DATA_TYPES : list string :=
  ["String"; "Text"; "Enum"; "Boolean"; "Blob"; "Binary"; "Array"; "JSON";
   "UUID"].

(** [any(skip_type in type_ for skip_type in SKIP_DATA_TYPES)] *)
Definition has_skip_type (type_ : string) : bool :=
  existsb (λ skip_type, Py.contains skip_type type_) SKIP_DATA_TYPES.

Definition get_tables {V} (client : Client V) (db_name : string)
    : M (list string) :=
  let query := "SHOW TABLES FROM " +:+ db_name in
  logging DEBUG ("Executing query: " +:+ query) ;;
  tables ← client_query (show_tables client) query;
  mret (map fst tables).

(** The loop of [get_columns_and_types] over the rows of [DESCRIBE]. *)
Fixpoint columns_loop (columns_info : list (string * string * list string))
    (columns types : list string) : M (list string * list string) :=
  match columns_info with
  | [] => mret (columns, types)
  | (column, type_, _) :: columns_info' =>
      if negb (bool_decide (column = "date")) && negb (has_skip_type type_)
      then columns_loop columns_info' (columns ++ [column]) (types ++ [type_])
      else if negb (bool_decide (column = "date"))
      then
        logging INFO (Uuml +:+ "berspringe Spalte mit ung" +:+ uuml
                      +:+ "ltigem Datentyp: " +:+ column +:+ ": " +:+ type_) ;;
        columns_loop columns_info' columns types
      else columns_loop columns_info' columns types
  end.

Definition get_columns_and_types {V} (client : Client V)
    (db_name table_name : string) : M (list string * list string) :=
  let query := "DESCRIBE TABLE " +:+ db_name +:+ "." +:+ table_name in
  columns_info ← client_query (describe_table client) query;
  columns_loop columns_info [] [].

(** ** Forecast table manager *)

(** [f"{col} {typ}, {col}_min {typ}, {col}_max {typ}"] *)
Definition column_definition (ct : string * string) : string :=
  let '(col, typ) := ct in
  col +:+ " " +:+ typ +:+ ", " +:+ col +:+ "_min " +:+ typ +:+ ", "
  +:+ col +:+ "_max " +:+ typ.

Definition columns_definitions (columns types : list string) : string :=
  Py.join ", " (map column_definition (zip columns types)).

Definition query_create (forecast_table_name columns_definitions : string)
    : string :=
  nl +:+ "    CREATE TABLE " +:+ forecast_table_name +:+ " (" +:+ nl
  +:+ "        date Date," +:+ nl
  +:+ "        " +:+ columns_definitions +:+ nl
  +:+ "    ) ENGINE = MergeTree()" +:+ nl
  +:+ "    ORDER BY date;" +:+ nl
  +:+ "    ".

Definition create_forecast_table {V} (client : Client V)
    (db_name table_name : string) (columns types : list string) : M unit :=
  let forecast_table_name := create_forecast_table_name db_name table_name in
  let short_table_name := Py.split1_last "." forecast_table_name in
  let query_check := "EXISTS TABLE " +:+ forecast_table_name in
  cell ← client_query (exists_table client) query_check;
  let exists_ := bool_decide (cell = 1) in
  (if exists_
   then
     logging INFO ("L" +:+ ouml +:+ "sche " +:+ short_table_name
                   +:+ " da bereits existent") ;;
     client_query (execute client) ("DROP TABLE " +:+ forecast_table_name)
   else mret ()) ;;
  client_query (execute client)
    (query_create forecast_table_name (columns_definitions columns types)) ;;
  if negb exists_
  then
    logging INFO ("Tabelle " +:+ short_table_name +:+ " erstellt") ;;
    append_new table_name
  else
    logging INFO ("Tabelle " +:+ short_table_name +:+ " neu erstellt") ;;
    append_updated table_name.

(** ** Forecasting, reshaping and the bulk insert *)

(** A value stored in a row of [forecast_data]: the date under key
    ['date'], numbers under the column keys. *)
Inductive Cell (V : Type) :=
  | CDate (d : Z)
  | CNum (v : V).
Global Arguments CDate {V} d.
Global Arguments CNum {V} v.

(** [forecast_data]: a dict from date to row, rows being dicts from key
    to cell.  The outer dict is read in insertion order, so it is kept
    as a list of bindings with distinct dates. *)
Abbreviation ForecastData V := (list (Z * gmap string (Cell V))).

(** [forecast_data[date][key] = cell] for a date that is bound. *)
Fixpoint set_item {V} (date : Z) (key : string) (cell : Cell V)
    (forecast_data : ForecastData V) : ForecastData V :=
  match forecast_data with
  | [] => []
  | (d, row) :: forecast_data' =>
      if bool_decide (d = date) then (d, <[key := cell]> row) :: forecast_data'
      else (d, row) :: set_item date key cell forecast_data'
  end.

(** The body of the loop over [export_data.iterrows()]. *)
Definition merge_point {V} (col : string) (row : ForecastPoint V)
    (forecast_data : ForecastData V) : ForecastData V :=
  let date := ds row in
  let forecast_data :=
    if bool_decide (date ∈ forecast_data.*1) then forecast_data
    else forecast_data ++ [(date, {["date" := CDate date]})] in
  let forecast_data := set_item date col (CNum (yhat row)) forecast_data in
  let forecast_data :=
    set_item date (col +:+ "_min") (CNum (yhat_lower row)) forecast_data in
  set_item date (col +:+ "_max") (CNum (yhat_upper row)) forecast_data.

Definition merge_points {V} (col : string) (export_data : list (ForecastPoint V))
    (forecast_data : ForecastData V) : ForecastData V :=
  foldl (λ fd row, merge_point col row fd) forecast_data export_data.

(** The cell of column [col] in a data row whose cells follow [columns]. *)
Definition column_cell {V} (columns : list string) (col : string)
    (cells : list V) : option V :=
  match list_find (λ c, c = col) columns with
  | Some (i, _) => cells !! i
  | None => None
  end.

(** [data[["date", col]]] renamed to (ds, y). *)
Definition series {V} (columns : list string) (col : string)
    (data : list (Z * list V)) : list (Z * option V) :=
  map (λ r, (r.1, column_cell columns col r.2)) data.

(** [data['date'].max()] of a frame with first row [d] *)
Definition max_date (d : Z) (dates : list Z) : Z := foldr Z.max d dates.

Section Script.

Context {V : Type}.
Variable str_value : V → string.   (* [str] on a forecast value *)
Variable str_date : Z → string.    (* [str] on a [datetime.date] *)
Variable prophet : Prophet V.

(** Lines 179-185: the four columns of the forecast are selected and
    copied, [ds] is turned into dates, and the bounds are copied to the
    columns [col_min] and [col_max].  When these statements go through,
    the rows are those of the forecast: a date is a day number here, and
    the loop over the rows finds under [col_min] and [col_max] what was
    under [yhat_lower] and [yhat_upper]. *)
Definition export_data (col : string) (forecast : list (ForecastPoint V))
    : answer (list (ForecastPoint V)) :=
  match post_processing prophet col forecast with
  | Error e => Error e
  | Answer _ => Answer forecast
  end.

(** What the [try] block computes for one column before it touches
    [forecast_data] (lines 171-185). *)
Definition forecast_column (columns : list string) (data : list (Z * list V))
    (last_known_date interval : Z) (only_future : bool) (col : string)
    : answer (list (ForecastPoint V)) :=
  match fit prophet (series columns col data) with
  | Error e => Error e
  | Answer model =>
      match make_future_dataframe prophet model interval with
      | Error e => Error e
      | Answer future =>
          let future :=
            if only_future
            then filter (λ d, last_known_date < d) future
            else future in
          match predict prophet model future with
          | Error e => Error e
          | Answer forecast => export_data col forecast
          end
      end
  end.

(** The loop [for col in columns] with its [try]/[except].  The [try]
    block ends with the loop over the rows of [export_data] (lines
    188-194), which reads the four labels that lines 179-185 have left in
    the frame and stores into dictionaries keyed by dates and strings;
    nothing in it raises.  So a column either merges all its rows, or an
    exception is caught before the first of them and [forecast_data] is
    as it was. *)
Fixpoint forecast_columns (table_name : string) (columns : list string)
    (data : list (Z * list V)) (last_known_date interval : Z)
    (only_future : bool) (todo : list string)
    (forecast_data : ForecastData V) : M (ForecastData V) :=
  match todo with
  | [] => mret forecast_data
  | col :: todo' =>
      match forecast_column columns data last_known_date interval
              only_future col with
      | Answer export_data =>
          forecast_columns table_name columns data last_known_date interval
            only_future todo' (merge_points col export_data forecast_data)
      | Error e =>
          append_failed table_name ;;
          logging ERROR ("Fehler beim Einf" +:+ uuml
            +:+ "gen der prognostizierten Prophet-Daten f" +:+ uuml +:+ "r "
            +:+ col +:+ " in " +:+ table_name +:+ ": " +:+ e) ;;
          forecast_columns table_name columns data last_known_date interval
            only_future todo' forecast_data
      end
  end.

Definition str_cell (c : Cell V) : string :=
  match c with
  | CDate d => str_date d
  | CNum v => str_value v
  end.

(** [str(data[key]) if key in data else 'NULL'] *)
Definition render_field (data : gmap string (Cell V)) (key : string) : string :=
  match data !! key with
  | Some c => str_cell c
  | None => "NULL"
  end.

(** One parenthesised tuple of [query_values]; [data['date']] is a
    [KeyError] when the key is missing. *)
Definition render_row (columns : list string) (data : gmap string (Cell V))
    : answer string :=
  match data !! "date" with
  | None => Error "'date'"
  | Some date =>
      Answer
        ("('" +:+ str_cell date +:+ "', "
         +:+ Py.join ", " (map (λ col, render_field data col) columns)
         +:+ ", "
         +:+ Py.join ", "
               (map (λ col, render_field data (col +:+ "_min")) columns)
         +:+ ", "
         +:+ Py.join ", "
               (map (λ col, render_field data (col +:+ "_max")) columns)
         +:+ ")")
  end.

Fixpoint render_rows (columns : list string)
    (rows : list (gmap string (Cell V))) : answer (list string) :=
  match rows with
  | [] => Answer []
  | data :: rows' =>
      match render_row columns data with
      | Error e => Error e
      | Answer t =>
          match render_rows columns rows' with
          | Error e => Error e
          | Answer ts => Answer (t :: ts)
          end
      end
  end.

Definition query_values (columns : list string)
    (forecast_data : ForecastData V) : answer string :=
  match render_rows columns (forecast_data.*2) with
  | Error e => Error e
  | Answer ts => Answer (Py.join ", " ts)
  end.

Definition query_insert (forecast_table_name : string)
    (columns : list string) : string :=
  nl +:+ "        INSERT INTO " +:+ forecast_table_name +:+ " (date, "
  +:+ Py.join ", " columns +:+ ", "
  +:+ Py.join ", " (map (λ col, col +:+ "_min") columns) +:+ ", "
  +:+ Py.join ", " (map (λ col, col +:+ "_max") columns) +:+ ")" +:+ nl
  +:+ "        VALUES" +:+ nl
  +:+ "        ".

(** The block under [if forecast_data:]. *)
Definition insert_forecast (client : Client V) (forecast_table_name : string)
    (columns : list string) (forecast_data : ForecastData V) : M unit :=
  match forecast_data with
  | [] => mret ()
  | _ :: _ =>
      match query_values columns forecast_data with
      | Error e => raise (Exception e)
      | Answer values =>
          client_query (execute client)
            (query_insert forecast_table_name columns +:+ values) ;;
          logging INFO ("Daten f" +:+ uuml +:+ "r " +:+ forecast_table_name
                        +:+ " eingef" +:+ uuml +:+ "gt")
      end
  end.

Definition forecast_table (client : Client V) (db_name table_name : string)
    (interval : Z) (only_future : bool) : M unit :=
  '(columns, types) ← get_columns_and_types client db_name table_name;
  let target := forecast_table_name db_name table_name in
  let query := "SELECT date, " +:+ Py.join ", " columns +:+ " FROM "
               +:+ db_name +:+ "." +:+ table_name +:+ " ORDER BY date" in
  data ← client_query (select_rows client) query;
  match data with
  | [] =>
      logging WARNING ("Fehlende Daten in " +:+ table_name) ;;
      append_failed table_name
  | (d, _) :: data' =>
      let last_known_date := max_date d (data'.*1) in
      forecast_data ← forecast_columns table_name columns data
                        last_known_date interval only_future columns [];
      insert_forecast client target columns forecast_data ;;
      append_successful table_name
  end.

End Script.

(** ** Run orchestrator *)

(** The values [main] accepts for [specific_tables]: [None], a string
    (what the command line passes) or a list of names. *)
Inductive SpecificTables :=
  | TablesNone
  | TablesStr (s : string)
  | TablesList (l : list string).

(** Truth value of [specific_tables]. *)
Definition truthy (specific_tables : SpecificTables) : bool :=
  match specific_tables with
  | TablesNone => false
  | TablesStr s => negb (bool_decide (s = ""))
  | TablesList l => negb (bool_decide (l = []))
  end.

(** [table in specific_tables]: substring test on a string, membership
    on a list.  It is only evaluated when [specific_tables] is truthy. *)
Definition table_in (table : string) (specific_tables : SpecificTables) : bool :=
  match specific_tables with
  | TablesNone => false
  | TablesStr s => Py.contains table s
  | TablesList l => bool_decide (table ∈ l)
  end.

(** The guard of the first [continue] of the loop in [main]. *)
Definition filtered_out (specific_tables : SpecificTables) (table : string)
    : bool :=
  truthy specific_tables && negb (table_in table specific_tables).

Definition get_state : M RunState := λ st, (Ok st, st).

Definition dashes : string :=
  "-----------------------------------------------------------------------------------------------".

(** The figures of the summary line, in the order they are printed. *)
Record Summary := mkSummary {
  sum_successful : Z;
  sum_new : Z;
  sum_updated : Z;
  sum_skipped : Z;
  sum_failed : Z
}.

Definition len {A} (l : list A) : Z := Z.of_nat (length l).

Definition summary (st : RunState) : Summary :=
  mkSummary (len (successful_tables st) + len (skipped_tables st))
            (len (new_tables st))
            (len (updated_tables st))
            (len (skipped_tables st) - len (failed_tables st))
            (len (failed_tables st)).

Definition summary_line (s : Summary) : string :=
  "Tabelleninformationen: Erfolgreich: " +:+ pretty (sum_successful s)
  +:+ ", Neu: " +:+ pretty (sum_new s)
  +:+ ", Aktualisiert: " +:+ pretty (sum_updated s)
  +:+ ", " +:+ Uuml +:+ "bersprungen: " +:+ pretty (sum_skipped s)
  +:+ ", Fehlerhaft: " +:+ pretty (sum_failed s).

Section Main.

Context {V Duration : Type}.
Variable str_value : V → string.
Variable str_date : Z → string.
Variable format_2f : Duration → string.   (* [f"{duration:.2f}"] *)
Variable prophet : Prophet V.

(** [get_client] either hands out a client or raises; the script logs
    the failure and leaves with [sys.exit(1)]. *)
Definition get_clickhouse_connection (get_client : answer (Client V))
    : M (Client V) :=
  match get_client with
  | Answer client =>
      logging INFO
        "Verbindung zur ClickHouse Datenbank erfolgreich hergestellt" ;;
      mret client
  | Error e =>
      logging ERROR
        ("Fehler beim Verbinden mit der ClickHouse Datenbank: " +:+ e) ;;
      raise (SystemExit 1)
  end.

(** One iteration of [for table in tables]. *)
Definition process_table (client : Client V) (db_name : string)
    (interval : Z) (specific_tables : SpecificTables) (only_future : bool)
    (table : string) : M unit :=
  if filtered_out specific_tables table then mret ()
  else if Py.startswith "bucket_forecast_" table then append_skipped table
  else
    logging INFO ("Starte Verarbeitung von " +:+ db_name +:+ "." +:+ table) ;;
    '(columns, types) ← get_columns_and_types client db_name table;
    create_forecast_table client db_name table columns types ;;
    forecast_table str_value str_date prophet client db_name table interval
      only_future.

Fixpoint process_tables (client : Client V) (db_name : string)
    (interval : Z) (specific_tables : SpecificTables) (only_future : bool)
    (tables : list string) : M unit :=
  match tables with
  | [] => mret ()
  | table :: tables' =>
      process_table client db_name interval specific_tables only_future table ;;
      process_tables client db_name interval specific_tables only_future tables'
  end.

(** The list [main] iterates over. *)
Definition select_tables (client : Client V) (db_name : string)
    (specific_tables : SpecificTables) : M (list string) :=
  match specific_tables with
  | TablesStr s =>
      if truthy specific_tables then mret (Py.split "," s)
      else get_tables client db_name
  | _ => get_tables client db_name
  end.

(** [main]; [duration] is the reading [time.time() - start_time] taken
    after the loop. *)
Definition main (get_client : answer (Client V)) (duration : Duration)
    (db_name : string) (interval : Z) (specific_tables : SpecificTables)
    (only_future : bool) : M unit :=
  client ← get_clickhouse_connection get_client;
  tables ← select_tables client db_name specific_tables;
  process_tables client db_name interval specific_tables only_future tables ;;
  logging INFO ("Prognoseverfahren erfolgreich beendet. Dauer: "
                +:+ format_2f duration +:+ " Sekunden") ;;
  st ← get_state;
  logging INFO (summary_line (summary st)) ;;
  logging INFO dashes.

End Main.

(** ** Vocabulary for the statements *)

(** [sub] occurs somewhere in [s]. *)
Definition occurs_in (sub s : string) : Prop :=
  ∃ pre post, s = pre +:+ sub +:+ post.

(** Field-wise concatenation of two run states: [extend st d] is [st]
    after the appends recorded in [d]. *)
Definition extend (st d : RunState) : RunState :=
  mkRunState (successful_tables st ++ successful_tables d)
             (new_tables st ++ new_tables d)
             (updated_tables st ++ updated_tables d)
             (failed_tables st ++ failed_tables d)
             (skipped_tables st ++ skipped_tables d)
             (queries st ++ queries d)
             (log_records st ++ log_records d).

(** The column declarations of a forecast table after [date Date], for
    the retained (column, type) pairs in order. *)
Definition schema_columns (pairs : list (string * string)) : list string :=
  flat_map (λ ct, [ct.1 +:+ " " +:+ ct.2; ct.1 +:+ "_min " +:+ ct.2;
                   ct.1 +:+ "_max " +:+ ct.2]) pairs.

(** The keys under which the columns store their estimate, lower and
    upper bound, in the order of the insert: all estimates, all [_min],
    all [_max]. *)
Definition field_names (columns : list string) : list string :=
  columns ++ map (λ col, col +:+ "_min") columns
          ++ map (λ col, col +:+ "_max") columns.

(** A table name that the loop of [main] does not pass over for being
    outside an explicit selection: any name when nothing is selected, a
    piece of the comma-separated string, a member of the list. *)
Definition candidate (specific_tables : SpecificTables) (table : string)
    : Prop :=
  match specific_tables with
  | TablesNone => True
  | TablesStr s => s = "" ∨ table ∈ Py.split "," s
  | TablesList l => l = [] ∨ table ∈ l
  end.

Definition is_error {A} (a : answer A) : bool :=
  match a with Error _ => true | Answer _ => false end.

(** ** Readings of the loops, used to state and prove their effects *)

(** Run states that record appends to one field only. *)
Definition issued (qs : list string) : RunState :=
  mkRunState [] [] [] [] [] qs [].
Definition logged (recs : list (Level * string)) : RunState :=
  mkRunState [] [] [] [] [] [] recs.
Definition failed (ts : list string) : RunState :=
  mkRunState [] [] [] ts [] [] [].

(** [forecast_data.get(date)]: the row bound to a date. *)
Fixpoint row_of {V} (date : Z) (forecast_data : ForecastData V)
    : option (gmap string (Cell V)) :=
  match forecast_data with
  | [] => None
  | (d, row) :: forecast_data' =>
      if bool_decide (d = date) then Some row else row_of date forecast_data'
  end.

(** A row after the three assignments of [merge_point] for one point. *)
Definition with_point {V} (col : string) (p : ForecastPoint V)
    (row : gmap string (Cell V)) : gmap string (Cell V) :=
  <[col +:+ "_max" := CNum (yhat_upper p)]>
    (<[col +:+ "_min" := CNum (yhat_lower p)]>
       (<[col := CNum (yhat p)]> row)).

(** The rows of [get_columns_and_types] that are kept, and the records
    it logs for the others. *)
Definition retained (row : string * string * list string) : bool :=
  negb (bool_decide (row.1.1 = "date")) && negb (has_skip_type row.1.2).

Definition skip_records (columns_info : list (string * string * list string))
    : list (Level * string) :=
  flat_map (λ row,
    if retained row then []
    else if negb (bool_decide (row.1.1 = "date"))
    then [(INFO, Uuml +:+ "berspringe Spalte mit ung" +:+ uuml
                 +:+ "ltigem Datentyp: " +:+ row.1.1 +:+ ": " +:+ row.1.2)]
    else []) columns_info.

Section Readings.

Context {V : Type}.
Variable prophet : Prophet V.
Variables (table_name : string) (columns : list string)
  (data : list (Z * list V)) (last_known_date interval : Z)
  (only_future : bool).

(** What [forecast_columns] leaves in [forecast_data]. *)
Fixpoint collected (todo : list string) (forecast_data : ForecastData V)
    : ForecastData V :=
  match todo with
  | [] => forecast_data
  | col :: todo' =>
      match forecast_column prophet columns data last_known_date interval
              only_future col with
      | Answer export_data =>
          collected todo' (merge_points col export_data forecast_data)
      | Error _ => collected todo' forecast_data
      end
  end.

(** The error records [forecast_columns] writes, one per failing column. *)
Fixpoint failure_records (todo : list string) : list (Level * string) :=
  match todo with
  | [] => []
  | col :: todo' =>
      match forecast_column prophet columns data last_known_date interval
              only_future col with
      | Answer _ => failure_records todo'
      | Error e =>
          (ERROR, "Fehler beim Einf" +:+ uuml
             +:+ "gen der prognostizierten Prophet-Daten f" +:+ uuml +:+ "r "
             +:+ col +:+ " in " +:+ table_name +:+ ": " +:+ e)
          :: failure_records todo'
      end
  end.

(** The columns of [todo] whose forecast raises. *)
Definition failing (todo : list string) : list string :=
  List.filter (λ col, is_error (forecast_column prophet columns data
                                  last_known_date interval only_future col))
    todo.

End Readings.

Section Rendering.

Context {V : Type}.
Variable str_value : V → string.
Variable str_date : Z → string.

(** One tuple of the insert as a joined list of fields: the quoted date,
    then the fields under [field_names], each printed or [NULL]. *)
Definition tuple_text (columns : list string) (row : gmap string (Cell V))
    : string :=
  "(" +:+ Py.join ", "
            (("'" +:+ render_field str_value str_date row "date" +:+ "'")
             :: map (render_field str_value str_date row) (field_names columns))
  +:+ ")".

(** The insert statement as one column list and one list of tuples. *)
Definition insert_text (target : string) (columns : list string)
    (forecast_data : ForecastData V) : string :=
  nl +:+ "        INSERT INTO " +:+ target
  +:+ " (" +:+ Py.join ", " ("date" :: field_names columns) +:+ ")" +:+ nl
  +:+ "        VALUES" +:+ nl
  +:+ "        "
  +:+ Py.join ", " (map (λ r, tuple_text columns r.2) forecast_data).

End Rendering.

(** ** A small database and a small engine to run the script on *)

Module Demo.

(** Numbers stand for the forecast values and for the durations. *)
Definition describe_rows (second : string)
    : list (string * string * list string) :=
  [("date", "Date", []); ("a", "Float64", []);
   ("name", "Nullable(String)", []); (second, "Int32", [])].

(** A client whose tables all have a date, the column [a], a text column
    and one more numeric column named [second]; only the forecast table
    of [bucket_sales] exists beforehand. *)
Definition client (second : string) (rows : list (Z * list Z)) : Client Z :=
  mkClient Z
    (λ _ _, Answer [("bucket_sales", []); ("orders", []);
                    ("bucket_forecast_sales", [])])
    (λ _ _, Answer (describe_rows second))
    (λ _ q, Answer
       (if bool_decide (q = "EXISTS TABLE db.bucket_forecast_sales")
        then 1 else 0))
    (λ _ _, Answer ())
    (λ _ _, Answer rows).

Definition rows : list (Z * list Z) := [(10, [1; 2]); (12, [3; 4]); (11, [5; 6])].

(** An engine that refuses a series starting with the value 2, extends
    the history by [periods] days and predicts [100 + d] on day [d]
    within [90 + d] and [110 + d]; like Prophet it refuses an empty
    frame.  The post-processing of its frames always goes through. *)
Definition engine : Prophet Z :=
  mkProphet Z (list Z)
    (λ s, match s with
          | (_, Some 2) :: _ => Error "bad series"
          | _ => Answer (s.*1)
          end)
    (λ m periods,
       Answer (m ++ map (λ i, max_date 0 m + Z.of_nat i)
                        (seq 1 (Z.to_nat periods))))
    (λ m future,
       match future with
       | [] => Error "Dataframe has no rows."
       | _ => Answer (map (λ d, mkPoint d (100 + d) (90 + d) (110 + d)) future)
       end)
    (λ _ _, Answer ()).

(** The same engine with a post-processing that raises on a frame of
    one row, as the assignment of the dates on line 181 can. *)
Definition short_frames : Prophet Z :=
  mkProphet Z (Model engine) (fit engine) (make_future_dataframe engine)
    (predict engine)
    (λ _ forecast,
       match forecast with
       | [_] => Error "incompatible dtype"
       | _ => Answer ()
       end).

Definition str_Z : Z → string := pretty.

Definition run (second : string) (specific_tables : SpecificTables)
    (only_future : bool) : result unit * RunState :=
  main str_Z str_Z str_Z engine (Answer (client second rows)) 42 "db" 2
    specific_tables only_future initial_state.

End Demo.

(** ** The script as a program *)

(** The block under [if __name__ == "__main__"], after [argparse] has
    parsed the arguments: the optional positional argument is passed on
    when it is a non-empty string, and as [None] otherwise. *)
Definition command_line_tables (arg : option string) : SpecificTables :=
  match arg with
  | Some s => if bool_decide (s = "") then TablesNone else TablesStr s
  | None => TablesNone
  end.

(** [log_exception], installed as [sys.excepthook]: the record it hands
    to the log (the traceback is added by the handler). *)
Definition log_exception : M unit :=
  logging ERROR ("Beim Ausf" +:+ uuml
                 +:+ "hren des Skripts ist folgender Fehler aufgetreten:").

Section Program.

Context {V Duration : Type}.
Variable str_value : V → string.
Variable str_date : Z → string.
Variable format_2f : Duration → string.
Variable prophet : Prophet V.

(** The run of the script on parsed arguments.  An [Exception] that
    leaves [main] reaches the hook; [SystemExit] ends the interpreter
    without it. *)
Definition script (get_client : answer (Client V)) (duration : Duration)
    (db_name : string) (interval : Z) (arg : option string)
    (only_future : bool) (st : RunState) : result unit * RunState :=
  match main str_value str_date format_2f prophet get_client duration db_name
          interval (command_line_tables arg) only_future st with
  | (Raise (Exception e), st') => (Raise (Exception e), (log_exception st').2)
  | outcome => outcome
  end.

End Program.

(** The exit status the interpreter reports for an outcome. *)
Definition exit_status (outcome : result unit) : Z :=
  match outcome with
  | Ok _ => 0
  | Raise (SystemExit code) => code
  | Raise (Exception _) => 1
  end.

(** ** Further vocabulary *)

(** The names of a list that the loop of [main] skips as forecast tables,
    and the names it goes on to process. *)
Definition is_skipped (specific_tables : SpecificTables) (table : string)
    : bool :=
  negb (filtered_out specific_tables table)
  && Py.startswith "bucket_forecast_" table.

Definition is_processed (specific_tables : SpecificTables) (table : string)
    : bool :=
  negb (filtered_out specific_tables table)
  && negb (Py.startswith "bucket_forecast_" table).

(** A client that answers every statement. *)
Definition responsive {V} (client : Client V) : Prop :=
  (∀ h q, ∃ a, show_tables client h q = Answer a)
  ∧ (∀ h q, ∃ a, describe_table client h q = Answer a)
  ∧ (∀ h q, ∃ a, exists_table client h q = Answer a)
  ∧ (∀ h q, execute client h q = Answer ())
  ∧ (∀ h q, ∃ a, select_rows client h q = Answer a).

(** A change of the run state that touches no list of tables. *)
Definition quiet (d : RunState) : Prop :=
  successful_tables d = [] ∧ new_tables d = [] ∧ updated_tables d = []
  ∧ failed_tables d = [] ∧ skipped_tables d = [].


(** [st'] is [st] with entries appended to its lists. *)
Definition grows (st st' : RunState) : Prop := ∃ d, st' = extend st d.

(** A computation that only appends to the run state, whatever its
    outcome. *)
Definition appends_only {A} (m : M A) : Prop := ∀ st, grows st (m st).2.


(** The five lists of tables of a run state. *)
Definition lists (st : RunState)
    : list string * list string * list string * list string * list string :=
  (successful_tables st, new_tables st, updated_tables st, failed_tables st,
   skipped_tables st).


(** ** Sample clients that refuse statements *)

Module Faulty.

(** A client like [Demo.client] that cannot describe tables. *)
Definition no_describe : Client Z :=
  mkClient Z
    (show_tables (Demo.client "b" Demo.rows))
    (λ _ _, Error "unknown table")
    (exists_table (Demo.client "b" Demo.rows))
    (execute (Demo.client "b" Demo.rows))
    (select_rows (Demo.client "b" Demo.rows)).

(** A client for which every forecast table exists and which accepts
    drops but no other statement that changes the database. *)
Definition drops_only : Client Z :=
  mkClient Z
    (show_tables (Demo.client "b" Demo.rows))
    (describe_table (Demo.client "b" Demo.rows))
    (λ _ _, Answer 1)
    (λ _ q, if Py.startswith "DROP TABLE " q then Answer ()
            else Error "read-only")
    (select_rows (Demo.client "b" Demo.rows)).

End Faulty.


(** * Properties *)

(** ** Strings *)

Section Strings.

Lemma str_app_cons (a : ascii) (s t : string) :
  String a s +:+ t = String a (s +:+ t).
Proof. reflexivity. Qed.

Lemma str_app_nil_l (s : string) : "" +:+ s = s.
Proof. reflexivity. Qed.

Lemma str_app_nil_r (s : string) : s +:+ "" = s.
Proof. induction s as [|a s IH]; [done|]. by rewrite str_app_cons, IH. Qed.

Lemma str_app_assoc (s t u : string) : (s +:+ t) +:+ u = s +:+ t +:+ u.
Proof. induction s as [|a s IH]; [done|]. by rewrite !str_app_cons, IH. Qed.

Lemma startswith_spec (p s : string) :
  Py.startswith p s = true ↔ ∃ post, s = p +:+ post.
Proof.
  revert s. induction p as [|a p IH]; intros s; simpl.
  - split; [intros _; by exists s | done].
  - destruct s as [|b s].
    + split; [done | intros [post H]; discriminate H].
    + rewrite andb_true_iff, bool_decide_eq_true, IH. split.
      * intros [-> [post ->]]. by exists post.
      * intros [post H]. rewrite str_app_cons in H. injection H as -> ->. eauto.
Qed.

Lemma contains_spec (sub s : string) :
  Py.contains sub s = true ↔ occurs_in sub s.
Proof.
  unfold occurs_in. induction s as [|b s IH]; simpl.
  - rewrite orb_false_r, startswith_spec. split.
    + intros [post H]. by exists "", post.
    + intros [[|a pre] [post H]]; [by exists post | discriminate H].
  - rewrite orb_true_iff, startswith_spec, IH. split.
    + intros [[post H] | [pre [post H]]].
      * by exists "", post.
      * exists (String b pre), post. by rewrite str_app_cons, H.
    + intros [[|a pre] [post H]].
      * left. by exists post.
      * right. rewrite str_app_cons in H. injection H as _ ->. by exists pre, post.
Qed.

(** The first piece of [s.split(c)] is a prefix of [s]. *)
Lemma split_head_prefix (c : ascii) (s : string) :
  ∃ w ws post, Py.split c s = w :: ws ∧ s = w +:+ post.
Proof.
  induction s as [|a s (w & ws & post & Hs & Hw)]; simpl.
  - by exists "", [], "".
  - case_bool_decide.
    + by exists "", (Py.split c s), (String a s).
    + rewrite Hs. exists (String a w), ws, post. by rewrite str_app_cons, <- Hw.
Qed.

(** Every piece of [s.split(c)] occurs in [s], which is why the
    substring test of [main] lets every listed name through. *)
Lemma split_contains (c : ascii) (s t : string) :
  t ∈ Py.split c s → Py.contains t s = true.
Proof.
  intros Hin. apply contains_spec. revert t Hin.
  induction s as [|a s IH]; simpl; intros t Hin.
  - apply list_elem_of_singleton in Hin as ->. by exists "", "".
  - case_bool_decide as Hc.
    + apply elem_of_cons in Hin as [-> | Hin].
      * by exists "", (String a s).
      * destruct (IH t Hin) as (pre & post & ->).
        by exists (String a pre), post.
    + destruct (split_head_prefix c s) as (w & ws & post & Hs & Hw).
      rewrite Hs in Hin, IH.
      apply elem_of_cons in Hin as [-> | Hin].
      * exists "", post. by rewrite str_app_nil_l, str_app_cons, <- Hw.
      * destruct (IH t) as (pre & post' & ->); [by right|].
        by exists (String a pre), post'.
Qed.

End Strings.

Section Join.

Lemma join_cons (sep x y : string) (ls : list string) :
  Py.join sep (x :: y :: ls) = x +:+ sep +:+ Py.join sep (y :: ls).
Proof. reflexivity. Qed.

Lemma join_app (sep : string) (l1 l2 : list string) :
  l1 ≠ [] → l2 ≠ [] →
  Py.join sep (l1 ++ l2) = Py.join sep l1 +:+ sep +:+ Py.join sep l2.
Proof.
  intros H1 H2. induction l1 as [|x [|y l1] IH]; [done| |].
  - destruct l2; done.
  - rewrite <- !app_comm_cons, !join_cons, app_comm_cons, IH by done.
    by rewrite !str_app_assoc.
Qed.

(** Joining joined groups is joining the flattened list. *)
Lemma join_flat_map {A} (sep : string) (f : A → list string) (l : list A) :
  (∀ x, x ∈ l → f x ≠ []) →
  Py.join sep (map (λ x, Py.join sep (f x)) l) = Py.join sep (flat_map f l).
Proof.
  induction l as [|x [|y l] IH]; intros Hne; [done| |].
  - simpl. by rewrite List.app_nil_r.
  - change (flat_map f (x :: y :: l)) with (f x ++ flat_map f (y :: l)).
    rewrite join_app.
    + rewrite <- IH by (intros; apply Hne; by right). done.
    + apply Hne. by left.
    + simpl. intros Hnil. apply app_eq_nil in Hnil as [Hnil _].
      apply (Hne y); [by right; left | done].
Qed.

Lemma columns_definitions_flat (columns types : list string) :
  columns_definitions columns types
  = Py.join ", " (schema_columns (zip columns types)).
Proof.
  unfold columns_definitions, schema_columns.
  rewrite <- join_flat_map by done.
  f_equal. apply map_ext. intros [col typ]. simpl.
  by rewrite !str_app_assoc.
Qed.

End Join.

(** ** The monad and the run state *)

Section Monad.

Lemma bind_ok {A B} (m : M A) (f : A → M B) st a st' :
  m st = (Ok a, st') → (m ≫= f) st = f a st'.
Proof. intros H. unfold mbind, M_bind. by rewrite H. Qed.

Lemma bind_raise {A B} (m : M A) (f : A → M B) st e st' :
  m st = (Raise e, st') → (m ≫= f) st = (Raise e, st').
Proof. intros H. unfold mbind, M_bind. by rewrite H. Qed.

Lemma extend_assoc (st d1 d2 : RunState) :
  extend (extend st d1) d2 = extend st (extend d1 d2).
Proof. unfold extend. simpl. by rewrite <- !(assoc_L (++)). Qed.

Lemma extend_initial (st : RunState) : extend st initial_state = st.
Proof. destruct st. unfold extend. simpl. by rewrite !List.app_nil_r. Qed.

Lemma logging_run (lvl : Level) (msg : string) (st : RunState) :
  logging lvl msg st
  = (Ok (), extend st (logged (if level_enabled lvl then [(lvl, msg)] else []))).
Proof.
  unfold logging, extend. simpl. rewrite !List.app_nil_r.
  by destruct (level_enabled lvl); simpl; rewrite ?List.app_nil_r.
Qed.

Lemma append_failed_run (t : string) (st : RunState) :
  append_failed t st = (Ok (), extend st (failed [t])).
Proof. unfold append_failed, extend. simpl. by rewrite !List.app_nil_r. Qed.

Lemma append_successful_run (t : string) (st : RunState) :
  append_successful t st
  = (Ok (), extend st (mkRunState [t] [] [] [] [] [] [])).
Proof. unfold append_successful, extend. simpl. by rewrite !List.app_nil_r. Qed.

Lemma append_new_run (t : string) (st : RunState) :
  append_new t st = (Ok (), extend st (mkRunState [] [t] [] [] [] [] [])).
Proof. unfold append_new, extend. simpl. by rewrite !List.app_nil_r. Qed.

Lemma append_updated_run (t : string) (st : RunState) :
  append_updated t st = (Ok (), extend st (mkRunState [] [] [t] [] [] [] [])).
Proof. unfold append_updated, extend. simpl. by rewrite !List.app_nil_r. Qed.

Lemma append_skipped_run (t : string) (st : RunState) :
  append_skipped t st = (Ok (), extend st (mkRunState [] [] [] [] [t] [] [])).
Proof. unfold append_skipped, extend. simpl. by rewrite !List.app_nil_r. Qed.

Lemma client_query_answer {A} (oracle : list string → string → answer A)
    (q : string) (st : RunState) (a : A) :
  oracle (queries st) q = Answer a →
  client_query oracle q st = (Ok a, extend st (issued [q])).
Proof.
  intros H. unfold client_query, extend. rewrite H. simpl.
  by rewrite !List.app_nil_r.
Qed.

Lemma client_query_error {A} (oracle : list string → string → answer A)
    (q : string) (st : RunState) (e : string) :
  oracle (queries st) q = Error e →
  client_query oracle q st = (Raise (Exception e), extend st (issued [q])).
Proof.
  intros H. unfold client_query, extend. rewrite H. simpl.
  by rewrite !List.app_nil_r.
Qed.

End Monad.

(** ** Names of forecast tables *)

Section Names.

(** On a name that starts with [bucket_] the insert target follows the
    naming rule. *)
Lemma forecast_table_name_bucket (db_name table_name : string) :
  Py.startswith "bucket_" table_name = true →
  forecast_table_name db_name table_name
  = db_name +:+ "." +:+ spec_forecast_name table_name.
Proof.
  intros H. unfold forecast_table_name, spec_forecast_name, spec_stem.
  by rewrite H.
Qed.

(** The name used for the table's creation follows the naming rule as
    long as stripping white space does not change whether the name starts
    with [bucket_]. *)
Lemma create_forecast_table_name_spec (db_name table_name : string) :
  Py.startswith "bucket_" (Py.strip table_name)
  = Py.startswith "bucket_" table_name →
  create_forecast_table_name db_name table_name
  = db_name +:+ "." +:+ spec_forecast_name table_name.
Proof.
  intros H. unfold create_forecast_table_name, spec_forecast_name, spec_stem.
  rewrite H. by destruct (Py.startswith "bucket_" table_name).
Qed.

(** C1 (the code departs from the naming rule).  For the source table
    [orders], which does not start with [bucket_], the table is created
    under the name the rule gives, [bucket_forecast_orders], but the insert
    of [forecast_table] cuts seven characters off the name regardless and
    targets [bucket_forecast_]; on the sample database the pass of [main]
    over [orders] sends its existence check for the first name and its
    insert to the second. *)
Theorem C1_insert_target_cuts_unprefixed_names :
  create_forecast_table_name "forecast_db" "orders"
    = "forecast_db." +:+ spec_forecast_name "orders"
  ∧ spec_forecast_name "orders" = "bucket_forecast_orders"
  ∧ forecast_table_name "forecast_db" "orders" = "forecast_db.bucket_forecast_"
  ∧ forecast_table_name "forecast_db" "orders"
    ≠ "forecast_db." +:+ spec_forecast_name "orders"
  ∧ (let sent :=
       queries (process_table Demo.str_Z Demo.str_Z Demo.engine
                  (Demo.client "b" Demo.rows) "db" 2 TablesNone true "orders"
                  initial_state).2 in
     sent !! 1%nat = Some "EXISTS TABLE db.bucket_forecast_orders"
     ∧ sent !! 5%nat
       = Some (query_insert "db.bucket_forecast_" ["a"; "b"]
               +:+ "('13', 113, NULL, 103, NULL, 123, NULL), "
               +:+ "('14', 114, NULL, 104, NULL, 124, NULL)")).
Proof.
  split_and!; [reflexivity|reflexivity|reflexivity| |].
  - intros H. discriminate H.
  - intros sent. split; by vm_compute.
Qed.

End Names.

(** ** Schema inspection *)

Section Inspector.

Context {V : Type}.

Lemma retained_spec (row : string * string * list string) :
  retained row = true ↔
  row.1.1 ≠ "date"
  ∧ ∀ skip_type, skip_type ∈ SKIP_DATA_TYPES → ¬ occurs_in skip_type row.1.2.
Proof.
  unfold retained, has_skip_type.
  rewrite andb_true_iff, !negb_true_iff, bool_decide_eq_false.
  apply and_iff_compat_l. rewrite <- not_true_iff_false, existsb_exists.
  split.
  - intros Hno skip_type Hin Hocc. apply Hno. exists skip_type.
    split; [by apply list_elem_of_In | by apply contains_spec].
  - intros Hno (skip_type & Hin & Hc).
    apply (Hno skip_type); [by apply list_elem_of_In | by apply contains_spec].
Qed.

Lemma columns_loop_run (columns_info : list (string * string * list string))
    (columns types : list string) (st : RunState) :
  columns_loop columns_info columns types st
  = (Ok (columns ++ map (λ row, row.1.1) (List.filter retained columns_info),
         types ++ map (λ row, row.1.2) (List.filter retained columns_info)),
     extend st (logged (skip_records columns_info))).
Proof.
  revert columns types st.
  induction columns_info as [|[[column type_] rest] info IH];
    intros columns types st.
  - simpl. change (logged []) with initial_state.
    by rewrite !List.app_nil_r, extend_initial.
  - cbn [columns_loop List.filter skip_records flat_map].
    change (negb (bool_decide (column = "date")) && negb (has_skip_type type_))
      with (retained (column, type_, rest)).
    fold (skip_records info).
    destruct (retained (column, type_, rest)) eqn:Hkeep.
    + rewrite IH. cbn [map fst snd app]. by rewrite <- !(assoc_L (++)).
    + cbn [fst snd]. destruct (negb (bool_decide (column = "date"))) eqn:Hdate.
      * erewrite bind_ok by apply logging_run. by rewrite IH, extend_assoc.
      * by rewrite IH.
Qed.

Lemma get_columns_and_types_run (client : Client V)
    (db_name table_name : string) (st : RunState)
    (columns_info : list (string * string * list string)) :
  describe_table client (queries st)
    ("DESCRIBE TABLE " +:+ db_name +:+ "." +:+ table_name)
  = Answer columns_info →
  get_columns_and_types client db_name table_name st
  = (Ok (map (λ row, row.1.1) (List.filter retained columns_info),
         map (λ row, row.1.2) (List.filter retained columns_info)),
     extend st (extend (issued ["DESCRIBE TABLE " +:+ db_name +:+ "."
                                  +:+ table_name])
                       (logged (skip_records columns_info)))).
Proof.
  intros H. unfold get_columns_and_types.
  erewrite bind_ok by (by apply client_query_answer).
  by rewrite columns_loop_run, extend_assoc.
Qed.

Lemma zip_map_same {A B C} (f : A → B) (g : A → C) (l : list A) :
  zip (map f l) (map g l) = map (λ x, (f x, g x)) l.
Proof. induction l as [|x l IH]; [done|]. simpl. by rewrite IH. Qed.

(** C4.  When [DESCRIBE TABLE] is answered, [get_columns_and_types]
    returns two lists of equal length, and a (column, type) pair is among
    them exactly when it is a described pair whose name is not [date] and
    whose type contains none of the skip substrings, compared character
    by character; so [date] is left out whatever its type. *)
Theorem C4_retained_columns (client : Client V) (db_name table_name : string)
    (st : RunState) (columns_info : list (string * string * list string)) :
  describe_table client (queries st)
    ("DESCRIBE TABLE " +:+ db_name +:+ "." +:+ table_name)
  = Answer columns_info →
  ∃ columns types st',
    get_columns_and_types client db_name table_name st
    = (Ok (columns, types), st')
    ∧ length columns = length types
    ∧ ∀ column type_,
        (column, type_) ∈ zip columns types ↔
        (∃ rest, (column, type_, rest) ∈ columns_info)
        ∧ column ≠ "date"
        ∧ ∀ skip_type, skip_type ∈ SKIP_DATA_TYPES →
                       ¬ occurs_in skip_type type_.
Proof.
  intros H. eexists _, _, _. split; [by apply get_columns_and_types_run|].
  split; [by rewrite !length_map|].
  intros column type_. rewrite zip_map_same, list_elem_of_fmap. split.
  - intros ([[c ty] rest] & Heq & Hin). simpl in Heq. injection Heq as -> ->.
    apply list_elem_of_In, filter_In in Hin as [Hin Hkeep].
    apply retained_spec in Hkeep as [Hdate Hskip].
    split; [exists rest; by apply list_elem_of_In | done].
  - intros ([rest Hin] & Hdate & Hskip). exists (column, type_, rest).
    split; [done|]. apply list_elem_of_In, filter_In.
    split; [by apply list_elem_of_In | by apply retained_spec].
Qed.

End Inspector.

(** ** Forecast table manager *)

Section Manager.

Context {V : Type}.

(** C6.  When the existence check is answered and the client accepts
    the statements, [create_forecast_table] issues the check, then a drop
    exactly when the check answered 1, then one create statement whose
    column list is [date Date] followed by the three declarations of each
    (column, type) pair in order; the source table is appended to
    [updated_tables] exactly when the forecast table existed and to
    [new_tables] exactly when it did not, and no other list changes. *)
Theorem C6_create_forecast_table (client : Client V)
    (db_name table_name : string) (columns types : list string)
    (st : RunState) (cell : Z) :
  let name := create_forecast_table_name db_name table_name in
  let existed := bool_decide (cell = 1) in
  exists_table client (queries st) ("EXISTS TABLE " +:+ name) = Answer cell →
  (∀ history q, execute client history q = Answer ()) →
  ∃ st',
    create_forecast_table client db_name table_name columns types st
    = (Ok (), st')
    ∧ queries st'
      = queries st
        ++ ["EXISTS TABLE " +:+ name]
        ++ (if existed then ["DROP TABLE " +:+ name] else [])
        ++ [nl +:+ "    CREATE TABLE " +:+ name +:+ " (" +:+ nl
            +:+ "        date Date," +:+ nl
            +:+ "        "
            +:+ Py.join ", " (schema_columns (zip columns types)) +:+ nl
            +:+ "    ) ENGINE = MergeTree()" +:+ nl
            +:+ "    ORDER BY date;" +:+ nl
            +:+ "    "]
    ∧ updated_tables st'
      = updated_tables st ++ (if existed then [table_name] else [])
    ∧ new_tables st' = new_tables st ++ (if existed then [] else [table_name])
    ∧ successful_tables st' = successful_tables st
    ∧ failed_tables st' = failed_tables st
    ∧ skipped_tables st' = skipped_tables st.
Proof.
  intros name existed Hexists Hexec. unfold create_forecast_table.
  fold name. erewrite bind_ok by (by apply client_query_answer).
  fold existed. rewrite <- columns_definitions_flat.
  fold (query_create name (columns_definitions columns types)).
  destruct existed.
  - erewrite bind_ok; cycle 1.
    { erewrite bind_ok by apply logging_run.
      by apply client_query_answer. }
    erewrite bind_ok by (by apply client_query_answer).
    cbn [negb]. erewrite bind_ok by apply logging_run.
    rewrite append_updated_run. eexists. split; [done|].
    simpl. by rewrite !List.app_nil_r, <- !(assoc_L (++)).
  - erewrite bind_ok by done.
    erewrite bind_ok by (by apply client_query_answer).
    cbn [negb]. erewrite bind_ok by apply logging_run.
    rewrite append_new_run. eexists. split; [done|].
    simpl. by rewrite !List.app_nil_r, <- !(assoc_L (++)).
Qed.

End Manager.

(** ** Run orchestrator: the skip rule *)

Section Skip.

Context {V : Type}.
Variable str_value : V → string.
Variable str_date : Z → string.
Variable prophet : Prophet V.

Lemma candidate_not_filtered_out (specific_tables : SpecificTables)
    (table : string) :
  candidate specific_tables table → filtered_out specific_tables table = false.
Proof.
  unfold candidate, filtered_out.
  destruct specific_tables as [|s|l]; simpl; [done| |].
  - intros [-> | Hin]; [done|].
    rewrite (split_contains _ _ _ Hin). apply andb_false_r.
  - intros [-> | Hin]; [done|].
    rewrite (bool_decide_eq_true_2 _ Hin). apply andb_false_r.
Qed.

(** Without a selection, and with a selection given as a string, every
    name [main] iterates over is a candidate; with a selection given as
    a list, the names of the catalog that are in the list are. *)
Lemma selected_is_candidate (client : Client V) (db_name : string)
    (specific_tables : SpecificTables) (st st' : RunState)
    (tables : list string) (table : string) :
  select_tables client db_name specific_tables st = (Ok tables, st') →
  table ∈ tables →
  (∀ l, specific_tables = TablesList l → l = [] ∨ table ∈ l) →
  candidate specific_tables table.
Proof.
  intros Hsel Hin Hlist. destruct specific_tables as [|s|l]; simpl.
  - done.
  - destruct (decide (s = "")) as [->|Hs]; [by left|]. right.
    unfold select_tables, truthy in Hsel.
    rewrite bool_decide_eq_false_2 in Hsel by done.
    by injection Hsel as <- _.
  - by apply Hlist.
Qed.

(** C3.  For a candidate name that starts with [bucket_forecast_], one
    pass of the loop of [main] appends the name to [skipped_tables] and
    does nothing else: no statement is sent to the client, no record is
    logged, no other list changes. *)
Theorem C3_forecast_tables_are_skipped (client : Client V) (db_name : string)
    (interval : Z) (specific_tables : SpecificTables) (only_future : bool)
    (table : string) (st : RunState) :
  candidate specific_tables table →
  Py.startswith "bucket_forecast_" table = true →
  process_table str_value str_date prophet client db_name interval
    specific_tables only_future table st
  = (Ok (),
     mkRunState (successful_tables st) (new_tables st) (updated_tables st)
       (failed_tables st) (skipped_tables st ++ [table]) (queries st)
       (log_records st)).
Proof.
  intros Hcand Hprefix. unfold process_table.
  by rewrite (candidate_not_filtered_out _ _ Hcand), Hprefix.
Qed.

End Skip.

(** ** Result reshaper: the rows of [forecast_data] *)

Section Reshaper.

Context {V : Type}.
Implicit Types (fd : ForecastData V) (row : gmap string (Cell V)).
Implicit Types (p : ForecastPoint V) (d date : Z) (col key : string).

Lemma set_item_dates date key (cell : Cell V) fd :
  (set_item date key cell fd).*1 = fd.*1.
Proof.
  induction fd as [|[d row] fd IH]; [done|]. cbn [set_item].
  case_bool_decide; rewrite !fmap_cons; [done | by rewrite IH].
Qed.

Lemma row_of_set_item d date key (cell : Cell V) fd :
  row_of d (set_item date key cell fd)
  = if bool_decide (d = date) then <[key := cell]> <$> row_of d fd
    else row_of d fd.
Proof.
  induction fd as [|[d' row] fd IH]; simpl.
  - by case_bool_decide.
  - destruct (decide (d' = date)) as [->|Hne].
    + rewrite bool_decide_eq_true_2 by done. simpl.
      destruct (decide (date = d)) as [->|Hne'].
      * by rewrite !bool_decide_eq_true_2.
      * rewrite !(bool_decide_eq_false_2 (date = d)) by done.
        by rewrite bool_decide_eq_false_2 by congruence.
    + rewrite (bool_decide_eq_false_2 (d' = date)) by done. simpl.
      rewrite IH. destruct (decide (d' = d)) as [->|Hne'].
      * rewrite !bool_decide_eq_true_2 by done.
        by rewrite bool_decide_eq_false_2.
      * by rewrite !(bool_decide_eq_false_2 (d' = d)).
Qed.

Lemma row_of_app d fd fd' :
  row_of d (fd ++ fd')
  = match row_of d fd with Some row => Some row | None => row_of d fd' end.
Proof.
  induction fd as [|[d' row] fd IH]; [done|]. simpl.
  by case_bool_decide.
Qed.

Lemma row_of_None d fd : row_of d fd = None ↔ d ∉ fd.*1.
Proof.
  induction fd as [|[d' row] fd IH]; simpl.
  - split; [intros _; apply not_elem_of_nil | done].
  - rewrite not_elem_of_cons. case_bool_decide as Hd.
    + split; [done|]. intros [Hne _]. by destruct Hne.
    + rewrite IH. split; [intros H; split; [congruence|done] | by intros [_ H]].
Qed.

Lemma row_of_elem d row fd : row_of d fd = Some row → (d, row) ∈ fd.
Proof.
  induction fd as [|[d' row'] fd IH]; simpl; [done|].
  case_bool_decide as Hd.
  - intros [= ->]. subst. by left.
  - intros H. right. by apply IH.
Qed.

Lemma elem_row_of d row fd : NoDup fd.*1 → (d, row) ∈ fd → row_of d fd = Some row.
Proof.
  induction fd as [|[d' row'] fd IH]; simpl; intros Hnd Hin.
  - by apply elem_of_nil in Hin.
  - apply NoDup_cons in Hnd as [Hfresh Hnd].
    apply elem_of_cons in Hin as [[= -> ->] | Hin].
    + by rewrite bool_decide_eq_true_2.
    + rewrite bool_decide_eq_false_2; [by apply IH|].
      intros ->. apply Hfresh. apply list_elem_of_fmap. by exists (d, row).
Qed.

Lemma merge_point_dates col p fd :
  (merge_point col p fd).*1
  = if bool_decide (ds p ∈ fd.*1) then fd.*1 else fd.*1 ++ [ds p].
Proof.
  unfold merge_point. rewrite !set_item_dates.
  case_bool_decide; [done|]. by rewrite fmap_app.
Qed.

Lemma merge_point_NoDup col p fd :
  NoDup fd.*1 → NoDup (merge_point col p fd).*1.
Proof.
  intros Hnd. rewrite merge_point_dates. case_bool_decide as Hin; [done|].
  apply NoDup_app. split_and!; [done| |apply NoDup_singleton].
  intros d Hd ->%list_elem_of_singleton. done.
Qed.

Lemma row_of_merge_point d col p fd :
  row_of d (merge_point col p fd)
  = if bool_decide (d = ds p)
    then Some (with_point col p
                 (default {["date" := CDate (ds p)]} (row_of (ds p) fd)))
    else row_of d fd.
Proof.
  unfold merge_point, with_point. rewrite !row_of_set_item.
  case_bool_decide as Hd.
  - subst d. case_bool_decide as Hin.
    + destruct (row_of (ds p) fd) as [row|] eqn:Hrow; [done|].
      by apply row_of_None in Hrow.
    + apply row_of_None in Hin as Hrow. rewrite row_of_app, Hrow. simpl.
      by rewrite bool_decide_eq_true_2.
  - case_bool_decide as Hin; [done|].
    rewrite row_of_app. destruct (row_of d fd); [done|]. simpl.
    by rewrite bool_decide_eq_false_2 by congruence.
Qed.

Lemma merge_points_snoc col (pts : list (ForecastPoint V)) p fd :
  merge_points col (pts ++ [p]) fd = merge_point col p (merge_points col pts fd).
Proof. unfold merge_points. by rewrite foldl_snoc. Qed.

Lemma merge_points_NoDup col (pts : list (ForecastPoint V)) fd :
  NoDup fd.*1 → NoDup (merge_points col pts fd).*1.
Proof.
  revert fd. induction pts as [|p pts IH]; intros fd Hnd; [done|].
  apply IH. by apply merge_point_NoDup.
Qed.

(** Merging the points of one column binds exactly the old dates and the
    dates of the points. *)
Lemma merge_points_dates col (pts : list (ForecastPoint V)) fd d :
  d ∈ (merge_points col pts fd).*1 ↔ d ∈ fd.*1 ∨ d ∈ map ds pts.
Proof.
  revert fd. induction pts as [|p pts IH]; intros fd.
  - simpl. rewrite elem_of_nil. tauto.
  - change (merge_points col (p :: pts) fd)
      with (merge_points col pts (merge_point col p fd)).
    rewrite IH, merge_point_dates. cbn [map]. rewrite elem_of_cons.
    case_bool_decide as Hin.
    + split; [tauto|]. intros [H|[->|H]]; auto.
    + rewrite elem_of_app, list_elem_of_singleton. split.
      * intros [[H| ->]|H]; auto.
      * intros [H|[->|H]]; auto.
Qed.

(** A property of the rows that holds for fresh rows and survives the
    assignments of a column holds after merging the column's points. *)
Lemma merge_points_rows (P : Z → gmap string (Cell V) → Prop) col
    (pts : list (ForecastPoint V)) fd :
  (∀ p, p ∈ pts → P (ds p) {["date" := CDate (ds p)]}) →
  (∀ p row, p ∈ pts → P (ds p) row → P (ds p) (with_point col p row)) →
  (∀ d row, row_of d fd = Some row → P d row) →
  ∀ d row, row_of d (merge_points col pts fd) = Some row → P d row.
Proof.
  revert fd. induction pts as [|p pts IH]; intros fd Hnew Hstep Hfd; [done|].
  change (merge_points col (p :: pts) fd)
    with (merge_points col pts (merge_point col p fd)).
  apply IH.
  - intros q Hq. apply Hnew. by right.
  - intros q row Hq. apply Hstep. by right.
  - intros d row. rewrite row_of_merge_point. case_bool_decide as Hd.
    + intros [= <-]. subst d. apply Hstep; [by left|].
      destruct (row_of (ds p) fd) as [row0|] eqn:Hrow; simpl.
      * by apply Hfd.
      * apply Hnew. by left.
    + apply Hfd.
Qed.

End Reshaper.

(** ** The loop over the columns *)

Section Columns.

Context {V : Type}.
Variable prophet : Prophet V.
Variables (table_name : string) (columns : list string)
  (data : list (Z * list V)) (last_known_date interval : Z)
  (only_future : bool).

Local Abbreviation forecast_of :=
  (forecast_column prophet columns data last_known_date interval only_future).
Local Abbreviation collect :=
  (collected prophet columns data last_known_date interval only_future).

Lemma state_after_failure (st : RunState) (t : string) (r : Level * string)
    (ts : list string) (rs : list (Level * string)) :
  extend (extend (extend st (failed [t])) (logged [r]))
         (extend (failed ts) (logged rs))
  = extend st (extend (failed (t :: ts)) (logged (r :: rs))).
Proof.
  unfold extend, failed, logged. simpl.
  by rewrite !List.app_nil_r, <- !(assoc_L (++)).
Qed.

(** [forecast_columns] never raises: its result is [collected], and its
    only effects are one entry in [failed_tables] and one error record
    per failing column. *)
Lemma forecast_columns_run (todo : list string) (fd : ForecastData V)
    (st : RunState) :
  forecast_columns prophet table_name columns data last_known_date interval
    only_future todo fd st
  = (Ok (collect todo fd),
     extend st
       (extend (failed (map (λ _, table_name)
                          (failing prophet columns data last_known_date
                             interval only_future todo)))
               (logged (failure_records prophet table_name columns data
                          last_known_date interval only_future todo)))).
Proof.
  revert fd st. induction todo as [|col todo IH]; intros fd st.
  - simpl. change (extend (failed []) (logged [])) with initial_state.
    by rewrite extend_initial.
  - cbn [forecast_columns collected failure_records]. unfold failing.
    cbn [List.filter]. fold (failing prophet columns data last_known_date
                               interval only_future todo).
    destruct (forecast_of col) as [pts|e]; cbn [is_error].
    + apply IH.
    + erewrite bind_ok by apply append_failed_run.
      erewrite bind_ok by apply logging_run.
      rewrite IH. cbn [level_enabled map]. by rewrite state_after_failure.
Qed.

Lemma collected_app (l1 l2 : list string) (fd : ForecastData V) :
  collect (l1 ++ l2) fd = collect l2 (collect l1 fd).
Proof.
  revert fd. induction l1 as [|col l1 IH]; intros fd; [done|].
  cbn [app collected]. by destruct (forecast_of col).
Qed.

Lemma collected_NoDup (todo : list string) (fd : ForecastData V) :
  NoDup fd.*1 → NoDup (collect todo fd).*1.
Proof.
  revert fd. induction todo as [|col todo IH]; intros fd Hnd; [done|].
  cbn [collected]. destruct (forecast_of col); [|by apply IH].
  by apply IH, merge_points_NoDup.
Qed.

(** The dates bound in the end are the dates bound at the start and the
    dates predicted for the columns that did not fail. *)
Lemma collected_dates (todo : list string) (fd : ForecastData V) (d : Z) :
  d ∈ (collect todo fd).*1 ↔
  d ∈ fd.*1
  ∨ ∃ col pts p, col ∈ todo ∧ forecast_of col = Answer pts ∧ p ∈ pts ∧ ds p = d.
Proof.
  revert fd. induction todo as [|col todo IH]; intros fd.
  - simpl. split; [by left|]. intros [?|(col & ? & ? & Hin & _)]; [done|].
    by apply elem_of_nil in Hin.
  - cbn [collected]. destruct (forecast_of col) as [pts|e] eqn:Hcol.
    + rewrite IH, merge_points_dates, (list_elem_of_fmap ds). split.
      * intros [[?|(p & -> & Hp)]|(c & ps & p & Hc & Hps & Hp & Hd)].
        -- by left.
        -- right. exists col, pts, p. split_and!; [by left|done..].
        -- right. exists c, ps, p. split_and!; [by right|done..].
      * intros [?|(c & ps & p & Hc & Hps & Hp & Hd)]; [by left; left|].
        apply elem_of_cons in Hc as [->|Hc].
        -- left. right. exists p. rewrite Hcol in Hps. by injection Hps as <-.
        -- right. by exists c, ps, p.
    + rewrite IH. split.
      * intros [?|(c & ps & p & Hc & Hps & Hp & Hd)]; [by left|].
        right. exists c, ps, p. split_and!; [by right|done..].
      * intros [?|(c & ps & p & Hc & Hps & Hp & Hd)]; [by left|].
        apply elem_of_cons in Hc as [->|Hc]; [congruence|].
        right. by exists c, ps, p.
Qed.

(** A property of the rows that holds at the start, for fresh rows, and
    survives the assignments of every column that did not fail, holds in
    the end. *)
Lemma collected_rows (P : Z → gmap string (Cell V) → Prop)
    (todo : list string) (fd : ForecastData V) :
  (∀ col pts p, col ∈ todo → forecast_of col = Answer pts → p ∈ pts →
     P (ds p) {["date" := CDate (ds p)]}) →
  (∀ col pts p row, col ∈ todo → forecast_of col = Answer pts → p ∈ pts →
     P (ds p) row → P (ds p) (with_point col p row)) →
  (∀ d row, row_of d fd = Some row → P d row) →
  ∀ d row, row_of d (collect todo fd) = Some row → P d row.
Proof.
  revert fd. induction todo as [|col todo IH]; intros fd Hnew Hstep Hfd; [done|].
  cbn [collected]. destruct (forecast_of col) as [pts|e] eqn:Hcol.
  - apply IH.
    + intros c ps p Hc. apply Hnew. by right.
    + intros c ps p row Hc. apply Hstep. by right.
    + apply merge_points_rows; [| |done].
      * intros p Hp. apply (Hnew col pts); [by left|done..].
      * intros p row Hp. apply (Hstep col pts); [by left|done..].
  - apply IH; [| |done].
    + intros c ps p Hc. apply Hnew. by right.
    + intros c ps p row Hc. apply Hstep. by right.
Qed.

(** Nothing is collected when every column fails or predicts no row. *)
Lemma collected_nil (todo : list string) :
  (∀ col, col ∈ todo → forecast_of col = Answer [] ∨ ∃ e, forecast_of col = Error e) →
  collect todo [] = [].
Proof.
  induction todo as [|col todo IH]; intros Hall; [done|].
  cbn [collected]. destruct (Hall col) as [-> | [e ->]]; [by left| |];
    apply IH; intros c Hc; apply Hall; by right.
Qed.

End Columns.

(** ** [forecast_table] *)

Section ForecastTable.

Context {V : Type}.
Variable str_value : V → string.
Variable str_date : Z → string.

Lemma bind_inv {A B} (m : M A) (f : A → M B) st b st' :
  (m ≫= f) st = (Ok b, st') →
  ∃ a st1, m st = (Ok a, st1) ∧ f a st1 = (Ok b, st').
Proof.
  unfold mbind, M_bind. destruct (m st) as [[a|e] st1]; [|done].
  intros H. by exists a, st1.
Qed.

(** A successful schema inspection has sent the [DESCRIBE] statement and
    has touched none of the five lists. *)
Lemma get_columns_and_types_effect (client : Client V)
    (db_name table_name : string) (st st1 : RunState)
    (columns types : list string) :
  get_columns_and_types client db_name table_name st
  = (Ok (columns, types), st1) →
  queries st1
  = queries st ++ ["DESCRIBE TABLE " +:+ db_name +:+ "." +:+ table_name]
  ∧ successful_tables st1 = successful_tables st
  ∧ new_tables st1 = new_tables st
  ∧ updated_tables st1 = updated_tables st
  ∧ failed_tables st1 = failed_tables st
  ∧ skipped_tables st1 = skipped_tables st
  ∧ "date" ∉ columns.
Proof.
  destruct (describe_table client (queries st)
              ("DESCRIBE TABLE " +:+ db_name +:+ "." +:+ table_name))
    as [columns_info|e] eqn:Hd.
  - rewrite (get_columns_and_types_run _ _ _ _ _ Hd). intros [= <- _ <-].
    simpl. rewrite !List.app_nil_r. split_and!; try done.
    intros ([[c ty] rest] & Hc & Hin)%list_elem_of_fmap.
    apply list_elem_of_In, filter_In in Hin as [_ Hkeep].
    apply retained_spec in Hkeep as [Hdate _]. by apply Hdate.
  - unfold get_columns_and_types.
    erewrite bind_raise by (by apply client_query_error). done.
Qed.

(** C9.  When the schema inspection has succeeded and the source query
    returns no rows, [forecast_table] ends normally whatever the engine
    is: the table is appended to [failed_tables] and not to
    [successful_tables], one warning is logged, and the only statements
    sent are the [DESCRIBE] and the [SELECT], so nothing is inserted. *)
Theorem C9_empty_source (client : Client V) (db_name table_name : string)
    (interval : Z) (only_future : bool) (st st1 : RunState)
    (columns types : list string) :
  let select := "SELECT date, " +:+ Py.join ", " columns +:+ " FROM "
                +:+ db_name +:+ "." +:+ table_name +:+ " ORDER BY date" in
  get_columns_and_types client db_name table_name st
  = (Ok (columns, types), st1) →
  select_rows client (queries st1) select = Answer [] →
  ∃ st',
    (∀ prophet : Prophet V,
       forecast_table str_value str_date prophet client db_name table_name
         interval only_future st = (Ok (), st'))
    ∧ queries st'
      = queries st
        ++ ["DESCRIBE TABLE " +:+ db_name +:+ "." +:+ table_name; select]
    ∧ log_records st'
      = log_records st1 ++ [(WARNING, "Fehlende Daten in " +:+ table_name)]
    ∧ failed_tables st' = failed_tables st ++ [table_name]
    ∧ successful_tables st' = successful_tables st
    ∧ new_tables st' = new_tables st
    ∧ updated_tables st' = updated_tables st
    ∧ skipped_tables st' = skipped_tables st.
Proof.
  intros select Hcols Hsel.
  destruct (get_columns_and_types_effect _ _ _ _ _ _ _ Hcols)
    as (Hq & Hs & Hn & Hu & Hf & Hk & _).
  eexists. split.
  - intros prophet. unfold forecast_table.
    erewrite bind_ok by exact Hcols. cbn beta iota. fold select.
    erewrite bind_ok by (by apply client_query_answer). cbv iota.
    erewrite bind_ok by apply logging_run.
    apply append_failed_run.
  - simpl. rewrite !List.app_nil_r, Hq, Hs, Hn, Hu, Hf, Hk.
    by rewrite <- !(assoc_L (++)).
Qed.

(** [forecast_columns] only appends to [failed_tables] and to the log. *)
Lemma forecast_columns_effect (prophet : Prophet V) (table_name : string)
    (columns : list string) (data : list (Z * list V))
    (last_known_date interval : Z) (only_future : bool) (todo : list string)
    (fd fd' : ForecastData V) (st st' : RunState) :
  forecast_columns prophet table_name columns data last_known_date interval
    only_future todo fd st = (Ok fd', st') →
  queries st' = queries st ∧ successful_tables st' = successful_tables st.
Proof.
  rewrite forecast_columns_run. intros [= _ <-]. simpl.
  by rewrite !List.app_nil_r.
Qed.

(** C8.  Let the schema inspection succeed and the source query return
    rows.  If the loop over the columns leaves [forecast_data] empty,
    [forecast_table] ends normally, sends no statement after the
    [DESCRIBE] and the [SELECT], and appends the table to
    [successful_tables]; and [forecast_data] is empty, in particular,
    when every column's forecast raises. *)
Theorem C8_no_rows_no_insert (prophet : Prophet V) (client : Client V)
    (db_name table_name : string) (interval : Z) (only_future : bool)
    (st st1 st2 st3 : RunState) (columns types : list string)
    (d : Z) (cells : list V) (data' : list (Z * list V)) :
  let select := "SELECT date, " +:+ Py.join ", " columns +:+ " FROM "
                +:+ db_name +:+ "." +:+ table_name +:+ " ORDER BY date" in
  let data := (d, cells) :: data' in
  let last_known_date := max_date d (data'.*1) in
  get_columns_and_types client db_name table_name st
  = (Ok (columns, types), st1) →
  client_query (select_rows client) select st1 = (Ok data, st2) →
  forecast_columns prophet table_name columns data last_known_date interval
    only_future columns [] st2 = (Ok [], st3) →
  (∃ st',
     forecast_table str_value str_date prophet client db_name table_name
       interval only_future st = (Ok (), st')
     ∧ queries st'
       = queries st
         ++ ["DESCRIBE TABLE " +:+ db_name +:+ "." +:+ table_name; select]
     ∧ successful_tables st' = successful_tables st ++ [table_name])
  ∧ ((∀ col, col ∈ columns →
        ∃ e, forecast_column prophet columns data last_known_date interval
               only_future col = Error e) →
     ∀ s, (forecast_columns prophet table_name columns data last_known_date
             interval only_future columns [] s).1 = Ok []).
Proof.
  intros select data last_known_date Hcols Hsel Hloop. split.
  - destruct (get_columns_and_types_effect _ _ _ _ _ _ _ Hcols)
      as (Hq1 & Hs1 & _).
    destruct (forecast_columns_effect _ _ _ _ _ _ _ _ _ _ _ _ Hloop)
      as (Hq3 & Hs3).
    assert (queries st2 = queries st1 ++ [select]
            ∧ successful_tables st2 = successful_tables st1) as (Hq2 & Hs2).
    { unfold client_query in Hsel.
      destruct (select_rows client (queries st1) select);
        by injection Hsel as _ <-. }
    eexists. split_and!.
    + unfold forecast_table.
      erewrite bind_ok by exact Hcols. cbn beta iota. fold select.
      erewrite bind_ok by exact Hsel.
      unfold data. cbv iota. fold data. fold last_known_date.
      erewrite bind_ok by exact Hloop. cbn [insert_forecast].
      erewrite bind_ok by done.
      apply append_successful_run.
    + simpl. by rewrite List.app_nil_r, Hq3, Hq2, Hq1, <- (assoc_L (++)).
    + simpl. by rewrite Hs3, Hs2, Hs1.
  - intros Hall s. rewrite forecast_columns_run. simpl. f_equal.
    apply collected_nil. intros col Hcol. right. by apply Hall.
Qed.

End ForecastTable.

(** ** The only-future filter *)

Section OnlyFuture.

Context {V : Type}.

Lemma max_date_ge (d : Z) (dates : list Z) :
  d ≤ max_date d dates ∧ ∀ x, x ∈ dates → x ≤ max_date d dates.
Proof.
  unfold max_date. induction dates as [|y dates [IH1 IH2]]; simpl.
  - split; [lia|]. intros x Hx. by apply elem_of_nil in Hx.
  - split; [lia|]. intros x [->|Hx]%elem_of_cons; [lia|].
    specialize (IH2 x Hx). lia.
Qed.

Lemma max_date_elem (d : Z) (dates : list Z) : max_date d dates ∈ d :: dates.
Proof.
  unfold max_date. induction dates as [|y dates IH]; simpl; [by left|].
  destruct (Z.max_spec y (foldr Z.max d dates)) as [[_ ->]|[_ ->]].
  - apply elem_of_cons in IH as [->|IH]; [by left | by right; right].
  - right. by left.
Qed.

Lemma min_key_ne_date (col : string) : col +:+ "_min" ≠ "date".
Proof.
  destruct col as [|a1 [|a2 [|a3 [|a4 [|a5 col]]]]];
    rewrite ?str_app_cons, ?str_app_nil_l; intros H; discriminate H.
Qed.

Lemma max_key_ne_date (col : string) : col +:+ "_max" ≠ "date".
Proof.
  destruct col as [|a1 [|a2 [|a3 [|a4 [|a5 col]]]]];
    rewrite ?str_app_cons, ?str_app_nil_l; intros H; discriminate H.
Qed.

(** The assignments of a column other than [date] leave the date cell. *)
Lemma with_point_date (col : string) (p : ForecastPoint V)
    (row : gmap string (Cell V)) :
  col ≠ "date" → with_point col p row !! "date" = row !! "date".
Proof.
  intros Hcol. unfold with_point.
  rewrite !lookup_insert_ne; [done|done|apply min_key_ne_date|apply max_key_ne_date].
Qed.

(** With [only_future] set, a column's forecast has only dates after the
    last known one, provided the engine predicts on the dates it is
    given. *)
Lemma forecast_column_future (prophet : Prophet V) (columns : list string)
    (data : list (Z * list V)) (last_known_date interval : Z) (col : string)
    (pts : list (ForecastPoint V)) :
  (∀ model future pts, predict prophet model future = Answer pts →
     ∀ p, p ∈ pts → ds p ∈ future) →
  forecast_column prophet columns data last_known_date interval true col
  = Answer pts →
  ∀ p, p ∈ pts → last_known_date < ds p.
Proof.
  intros Hpredict. unfold forecast_column, export_data.
  destruct (fit prophet _) as [model|e]; [|done].
  destruct (make_future_dataframe prophet model interval) as [future|e]; [|done].
  destruct (predict prophet model _) as [forecast|e] eqn:Hforecast; [|done].
  destruct (post_processing prophet col forecast) as [[]|e]; [|done].
  intros [= <-] p Hp. specialize (Hpredict _ _ _ Hforecast p Hp).
  by apply list_elem_of_filter in Hpredict as [Hlt _].
Qed.

End OnlyFuture.

(** ** The summary *)

Section Summary.

Context {V Duration : Type}.
Variable str_value : V → string.
Variable str_date : Z → string.
Variable format_2f : Duration → string.
Variable prophet : Prophet V.

Lemma map_const_replicate {A B} (b : B) (l : list A) :
  map (λ _, b) l = replicate (length l) b.
Proof. induction l as [|x l IH]; [done|]. simpl. by rewrite IH. Qed.

(** C10.  When [main] ends normally, the last three log records are the
    elapsed time, the summary line and a rule; the summary line prints,
    for the lists as they are at the end, the length of the successful
    list plus that of the skipped list, the lengths of the new and of the
    updated list, the length of the skipped list minus that of the failed
    list, and the length of the failed list.  The loop over the columns
    appends the table to the failed list once per failing column. *)
Theorem C10_summary (get_client : answer (Client V)) (duration : Duration)
    (db_name : string) (interval : Z) (specific_tables : SpecificTables)
    (only_future : bool) (st0 st' : RunState) :
  main str_value str_date format_2f prophet get_client duration db_name
    interval specific_tables only_future st0 = (Ok (), st') →
  (∃ records,
     log_records st'
     = records
       ++ [(INFO, "Prognoseverfahren erfolgreich beendet. Dauer: "
                  +:+ format_2f duration +:+ " Sekunden");
           (INFO, "Tabelleninformationen: Erfolgreich: "
                  +:+ pretty (len (successful_tables st')
                              + len (skipped_tables st'))
                  +:+ ", Neu: " +:+ pretty (len (new_tables st'))
                  +:+ ", Aktualisiert: " +:+ pretty (len (updated_tables st'))
                  +:+ ", " +:+ Uuml +:+ "bersprungen: "
                  +:+ pretty (len (skipped_tables st')
                              - len (failed_tables st'))
                  +:+ ", Fehlerhaft: " +:+ pretty (len (failed_tables st')));
           (INFO, dashes)])
  ∧ (∀ (table_name : string) (columns : list string)
       (data : list (Z * list V)) (last_known_date : Z) (todo : list string)
       (fd : ForecastData V) (st : RunState),
       failed_tables
         (forecast_columns prophet table_name columns data last_known_date
            interval only_future todo fd st).2
       = failed_tables st
         ++ replicate
              (length (failing prophet columns data last_known_date interval
                         only_future todo))
              table_name).
Proof.
  intros Hmain. split.
  - unfold main in Hmain.
    apply bind_inv in Hmain as (client & st1 & _ & Hmain).
    apply bind_inv in Hmain as (tables & st2 & _ & Hmain).
    apply bind_inv in Hmain as ([] & st3 & _ & Hmain).
    erewrite bind_ok in Hmain by apply logging_run.
    erewrite bind_ok in Hmain by reflexivity.
    erewrite bind_ok in Hmain by apply logging_run.
    rewrite logging_run in Hmain. injection Hmain as <-.
    exists (log_records st3). unfold summary_line, summary. simpl.
    by rewrite !List.app_nil_r, <- !(assoc_L (++)).
  - intros table_name columns data last_known_date todo fd st.
    rewrite forecast_columns_run. simpl.
    by rewrite List.app_nil_r, map_const_replicate.
Qed.

End Summary.

(** ** Bulk inserter *)

Section Inserter.

Context {V : Type}.
Variable str_value : V → string.
Variable str_date : Z → string.

Local Abbreviation field := (render_field str_value str_date).

Lemma join_three (l1 l2 l3 : list string) (x : string) :
  l1 ≠ [] → l2 ≠ [] → l3 ≠ [] →
  x +:+ ", " +:+ Py.join ", " l1 +:+ ", " +:+ Py.join ", " l2 +:+ ", "
    +:+ Py.join ", " l3
  = Py.join ", " (x :: l1 ++ l2 ++ l3).
Proof.
  intros H1 H2 H3. destruct l1 as [|y l1]; [done|].
  rewrite <- !app_comm_cons, join_cons, app_comm_cons.
  by rewrite (join_app ", " (y :: l1) (l2 ++ l3)), (join_app ", " l2 l3)
    by (done || by destruct l2).
Qed.

Lemma map_not_nil {A B} (f : A → B) (l : list A) : l ≠ [] → map f l ≠ [].
Proof. by destruct l. Qed.

Lemma render_row_text (columns : list string) (row : gmap string (Cell V)) :
  columns ≠ [] → is_Some (row !! "date") →
  render_row str_value str_date columns row
  = Answer (tuple_text str_value str_date columns row).
Proof.
  intros Hcols [date Hdate]. unfold render_row, tuple_text, field_names.
  rewrite Hdate. f_equal. rewrite !map_app, !map_map.
  rewrite <- join_three by (by apply map_not_nil).
  unfold render_field at 4. rewrite Hdate.
  by rewrite !str_app_assoc.
Qed.

Lemma render_rows_text (columns : list string)
    (rows : list (gmap string (Cell V))) :
  columns ≠ [] → (∀ row, row ∈ rows → is_Some (row !! "date")) →
  render_rows str_value str_date columns rows
  = Answer (map (tuple_text str_value str_date columns) rows).
Proof.
  intros Hcols. induction rows as [|row rows IH]; intros Hdate; [done|].
  cbn [render_rows map]. rewrite render_row_text, IH; [done| |done|].
  - intros r Hr. apply Hdate. by right.
  - apply Hdate. by left.
Qed.

Lemma query_insert_text (target : string) (columns : list string) :
  columns ≠ [] →
  query_insert target columns
  = nl +:+ "        INSERT INTO " +:+ target
    +:+ " (" +:+ Py.join ", " ("date" :: field_names columns) +:+ ")" +:+ nl
    +:+ "        VALUES" +:+ nl +:+ "        ".
Proof.
  intros Hcols. unfold query_insert, field_names.
  rewrite <- join_three by (done || by apply map_not_nil).
  by rewrite !str_app_assoc.
Qed.

Lemma query_values_text (columns : list string) (fd : ForecastData V) :
  columns ≠ [] →
  (∀ d row, (d, row) ∈ fd → is_Some (row !! "date")) →
  query_values str_value str_date columns fd
  = Answer (Py.join ", "
              (map (λ r, tuple_text str_value str_date columns r.2) fd)).
Proof.
  intros Hcols Hdate. unfold query_values.
  rewrite render_rows_text; [|done|].
  - by rewrite <- list_fmap_compose.
  - intros row ([d row'] & -> & Hin)%list_elem_of_fmap. by apply (Hdate d).
Qed.

Lemma insert_text_split (target : string) (columns : list string)
    (fd : ForecastData V) :
  columns ≠ [] →
  insert_text str_value str_date target columns fd
  = query_insert target columns
    +:+ Py.join ", " (map (λ r, tuple_text str_value str_date columns r.2) fd).
Proof.
  intros Hcols. rewrite query_insert_text by done. unfold insert_text.
  by rewrite !str_app_assoc.
Qed.

(** What [insert_forecast] sends for rows that all carry a date. *)
Lemma insert_forecast_run (client : Client V) (target : string)
    (columns : list string) (fd : ForecastData V) (st : RunState) :
  fd ≠ [] → columns ≠ [] →
  (∀ d row, (d, row) ∈ fd → is_Some (row !! "date")) →
  execute client (queries st) (insert_text str_value str_date target columns fd)
  = Answer () →
  insert_forecast str_value str_date client target columns fd st
  = (Ok (),
     extend st
       (extend (issued [insert_text str_value str_date target columns fd])
          (logged [(INFO, "Daten f" +:+ uuml +:+ "r " +:+ target
                          +:+ " eingef" +:+ uuml +:+ "gt")]))).
Proof.
  intros Hfd Hcols Hdate Hexec. unfold insert_forecast.
  rewrite query_values_text, <- insert_text_split by done.
  destruct fd as [|r fd]; [done|].
  erewrite bind_ok by (by apply client_query_answer).
  by rewrite logging_run, extend_assoc.
Qed.

(** C7.  For a non-empty [forecast_data] whose rows carry their date and
    a non-empty column list, the bulk inserter sends exactly one
    statement, accepted by the client: an insert whose column list is
    [date], the columns, the columns with [_min], the columns with [_max],
    and whose values are one tuple per row of [forecast_data], in order,
    each with the quoted date and one field per listed column; a field
    whose key is missing from the row is printed as [NULL]. *)
Theorem C7_bulk_insert (client : Client V) (target : string)
    (columns : list string) (fd : ForecastData V) (st : RunState) :
  let fields := columns ++ map (λ col, col +:+ "_min") columns
                        ++ map (λ col, col +:+ "_max") columns in
  let tuple (row : gmap string (Cell V)) :=
    "(" +:+ Py.join ", " (("'" +:+ field row "date" +:+ "'")
                          :: map (field row) fields) +:+ ")" in
  let statement :=
    nl +:+ "        INSERT INTO " +:+ target
    +:+ " (" +:+ Py.join ", " ("date" :: fields) +:+ ")" +:+ nl
    +:+ "        VALUES" +:+ nl
    +:+ "        " +:+ Py.join ", " (map (λ r, tuple r.2) fd) in
  fd ≠ [] → columns ≠ [] →
  (∀ d row, (d, row) ∈ fd → is_Some (row !! "date")) →
  execute client (queries st) statement = Answer () →
  (∃ st',
     insert_forecast str_value str_date client target columns fd st
     = (Ok (), st')
     ∧ queries st' = queries st ++ [statement])
  ∧ length (map (λ r, tuple r.2) fd) = length fd
  ∧ ∀ row key, row !! key = None → field row key = "NULL".
Proof.
  intros fields tuple statement Hfd Hcols Hdate Hexec. split_and!.
  - eexists. split; [by apply insert_forecast_run|]. reflexivity.
  - by rewrite length_map.
  - intros row key Hkey. unfold render_field. by rewrite Hkey.
Qed.

End Inserter.

(** ** Partial failure *)

Section Keys.

Context {V : Type}.
Implicit Types (fd : ForecastData V) (row : gmap string (Cell V)).
Implicit Types (p q : ForecastPoint V) (col key : string).

Lemma str_ne_app (s t : string) : t ≠ "" → s ≠ s +:+ t.
Proof.
  intros Ht. induction s as [|a s IH].
  - rewrite str_app_nil_l. congruence.
  - rewrite str_app_cons. intros [= H]. by apply IH.
Qed.

Lemma min_key_ne_max_key col : col +:+ "_min" ≠ col +:+ "_max".
Proof. intros H. apply (inj (String.app col)) in H. discriminate H. Qed.

Lemma with_point_estimate col p row :
  with_point col p row !! col = Some (CNum (yhat p)).
Proof.
  unfold with_point.
  rewrite !lookup_insert_ne by (apply not_eq_sym, str_ne_app; done).
  apply lookup_insert_eq.
Qed.

Lemma with_point_min col p row :
  with_point col p row !! (col +:+ "_min") = Some (CNum (yhat_lower p)).
Proof.
  unfold with_point.
  rewrite lookup_insert_ne by (apply not_eq_sym, min_key_ne_max_key).
  apply lookup_insert_eq.
Qed.

Lemma with_point_max col p row :
  with_point col p row !! (col +:+ "_max") = Some (CNum (yhat_upper p)).
Proof. unfold with_point. apply lookup_insert_eq. Qed.

Lemma with_point_other col p row key :
  key ≠ col → key ≠ col +:+ "_min" → key ≠ col +:+ "_max" →
  with_point col p row !! key = row !! key.
Proof. intros H1 H2 H3. unfold with_point. by rewrite !lookup_insert_ne. Qed.

(** Merging a column's points keeps a bound date bound and leaves the
    cells under the keys of other columns. *)
Lemma merge_points_frame col (pts : list (ForecastPoint V)) fd d row :
  row_of d fd = Some row →
  ∃ row', row_of d (merge_points col pts fd) = Some row'
          ∧ ∀ key, key ≠ col → key ≠ col +:+ "_min" → key ≠ col +:+ "_max" →
                   row' !! key = row !! key.
Proof.
  revert fd row. induction pts as [|p pts IH]; intros fd row Hrow.
  - by exists row.
  - change (merge_points col (p :: pts) fd)
      with (merge_points col pts (merge_point col p fd)).
    destruct (decide (d = ds p)) as [Hd|Hd].
    + destruct (IH (merge_point col p fd) (with_point col p row))
        as (row' & Hrow' & Hkeys).
      { rewrite row_of_merge_point, bool_decide_eq_true_2 by done.
        subst d. by rewrite Hrow. }
      exists row'. split; [done|]. intros key H1 H2 H3.
      by rewrite Hkeys, with_point_other.
    + apply IH. by rewrite row_of_merge_point, bool_decide_eq_false_2.
Qed.

(** After merging a column's points, the row of each predicted date
    carries the estimate and the bounds of a point of that date. *)
Lemma merge_points_value col (pts : list (ForecastPoint V)) fd p :
  p ∈ pts →
  ∃ q row, q ∈ pts ∧ ds q = ds p
           ∧ row_of (ds p) (merge_points col pts fd) = Some row
           ∧ row !! col = Some (CNum (yhat q))
           ∧ row !! (col +:+ "_min") = Some (CNum (yhat_lower q))
           ∧ row !! (col +:+ "_max") = Some (CNum (yhat_upper q)).
Proof.
  induction pts as [|x pts IH] using rev_ind; intros Hp.
  - by apply elem_of_nil in Hp.
  - rewrite merge_points_snoc.
    destruct (decide (ds p = ds x)) as [Hd|Hd].
    + exists x. eexists. split_and!.
      * apply elem_of_app. right. by left.
      * done.
      * by rewrite row_of_merge_point, bool_decide_eq_true_2.
      * apply with_point_estimate.
      * apply with_point_min.
      * apply with_point_max.
    + apply elem_of_app in Hp as [Hp|Hp%list_elem_of_singleton];
        [|by subst].
      destruct (IH Hp) as (q & row & Hq & Hds & Hrow & Hvals).
      exists q, row. split_and!; [apply elem_of_app; by left|done| |apply Hvals..].
      by rewrite row_of_merge_point, bool_decide_eq_false_2.
Qed.

Lemma field_names_one (col : string) :
  field_names [col] = [col; col +:+ "_min"; col +:+ "_max"].
Proof. reflexivity. Qed.

End Keys.

Section PartialFailure.

Context {V : Type}.
Variable str_value : V → string.
Variable str_date : Z → string.
Variable prophet : Prophet V.
Variables (columns : list string) (data : list (Z * list V))
  (last_known_date interval : Z) (only_future : bool).

Local Abbreviation forecast_of :=
  (forecast_column prophet columns data last_known_date interval only_future).
Local Abbreviation collect :=
  (collected prophet columns data last_known_date interval only_future).

(** The loop keeps a bound date bound and leaves the cells under keys
    that belong to none of the columns it merges. *)
Lemma collected_frame (todo : list string) (fd : ForecastData V) (d : Z)
    (row : gmap string (Cell V)) :
  row_of d fd = Some row →
  ∃ row', row_of d (collect todo fd) = Some row'
          ∧ ∀ key,
              (∀ col pts, col ∈ todo → forecast_of col = Answer pts →
                 key ≠ col ∧ key ≠ col +:+ "_min" ∧ key ≠ col +:+ "_max") →
              row' !! key = row !! key.
Proof.
  revert fd row. induction todo as [|col todo IH]; intros fd row Hrow.
  - by exists row.
  - cbn [collected]. destruct (forecast_of col) as [pts|e] eqn:Hcol.
    + destruct (merge_points_frame col pts fd d row Hrow)
        as (row1 & Hrow1 & Hkeys1).
      destruct (IH _ _ Hrow1) as (row' & Hrow' & Hkeys).
      exists row'. split; [done|]. intros key Hkey.
      rewrite Hkeys by (intros c ps Hc; apply Hkey; by right).
      destruct (Hkey col pts) as (H1 & H2 & H3); [by left|done|].
      by apply Hkeys1.
    + destruct (IH _ _ Hrow) as (row' & Hrow' & Hkeys).
      exists row'. split; [done|]. intros key Hkey.
      apply Hkeys. intros c ps Hc. apply Hkey. by right.
Qed.

(** Every collected row carries a date cell. *)
Lemma collected_has_date (todo : list string) (d : Z)
    (row : gmap string (Cell V)) :
  (d, row) ∈ collect todo [] → is_Some (row !! "date").
Proof.
  intros Hin. apply elem_row_of in Hin; [|apply collected_NoDup; constructor].
  revert d row Hin. apply collected_rows.
  - intros col pts p _ _ _. by rewrite lookup_singleton_eq.
  - intros col pts p row _ _ _ Hrow. unfold with_point.
    rewrite !lookup_insert_is_Some'. auto.
  - done.
Qed.

(** A column leaves no cell under its three keys when no column whose
    forecast is merged has a field name in common with it. *)
Lemma failed_column_absent (b key : string) (d : Z)
    (row : gmap string (Cell V)) :
  "date" ∉ columns → b ∈ columns →
  (∀ c rows k, c ∈ columns → forecast_of c = Answer rows →
     k ∈ field_names [c] → k ∉ field_names [b]) →
  key ∈ field_names [b] →
  (d, row) ∈ collect columns [] → row !! key = None.
Proof.
  intros Hdate Hb Hclash Hkey Hin.
  apply elem_row_of in Hin; [|apply collected_NoDup; constructor].
  revert d row Hin. apply collected_rows.
  - intros col pts p _ _ _. apply lookup_singleton_ne. intros <-.
    rewrite field_names_one in Hkey.
    repeat (apply elem_of_cons in Hkey as [Hkey|Hkey]).
    + apply Hdate. by rewrite Hkey.
    + by apply (min_key_ne_date b).
    + by apply (max_key_ne_date b).
    + by apply elem_of_nil in Hkey.
  - intros col pts p row Hcol Hpts _ Hrow.
    rewrite with_point_other; [done|..]; intros Hk;
      (apply (Hclash col pts key Hcol Hpts); [|exact Hkey]);
      rewrite Hk, field_names_one; repeat constructor.
  - done.
Qed.

(** The row of each date predicted for a column whose forecast is merged
    carries, in the end, the estimate and the bounds of a point of that
    date, when no other column whose forecast is merged has a field name
    in common with it. *)
Lemma forecast_column_present (a : string) (pts : list (ForecastPoint V))
    (p : ForecastPoint V) :
  a ∈ columns →
  (∀ c rows k, c ∈ columns → c ≠ a → forecast_of c = Answer rows →
     k ∈ field_names [c] → k ∉ field_names [a]) →
  forecast_of a = Answer pts → p ∈ pts →
  ∃ q row, q ∈ pts ∧ ds q = ds p ∧ (ds p, row) ∈ collect columns []
           ∧ row !! a = Some (CNum (yhat q))
           ∧ row !! (a +:+ "_min") = Some (CNum (yhat_lower q))
           ∧ row !! (a +:+ "_max") = Some (CNum (yhat_upper q)).
Proof.
  intros Ha Hclash Hpts Hp.
  destruct (list_elem_of_split_r _ _ Ha) as (l1 & l2 & Heq & Hlast).
  assert (collect columns [] = collect l2 (collect (l1 ++ [a]) [])) as ->.
  { rewrite <- collected_app, <- (assoc_L (++)). cbn [app]. by rewrite <- Heq. }
  rewrite collected_app. cbn [collected]. rewrite Hpts.
  destruct (merge_points_value a pts (collect l1 []) p Hp)
    as (q & row & Hq & Hds & Hrow & Hy & Hlo & Hup).
  destruct (collected_frame l2 _ _ _ Hrow) as (row' & Hrow' & Hkeys).
  exists q, row'. split_and!; [done|done|by apply row_of_elem|..].
  all: rewrite Hkeys; [done|]; intros c ps Hc Hps.
  all: assert (c ≠ a) as Hne by (by intros ->).
  all: assert (c ∈ columns) as Hcin
    by (rewrite Heq, elem_of_app; right; by right).
  all: split_and!; intros Hk;
    (match type of Hk with
     | ?k = _ => apply (Hclash c ps k Hcin Hne Hps)
     end;
     [rewrite field_names_one, Hk|rewrite field_names_one];
     repeat constructor).
Qed.

End PartialFailure.

Section Outcome.

Context {V : Type}.
Variable str_value : V → string.
Variable str_date : Z → string.

(** What a call of [forecast_table] on a source with rows sends and
    records, whatever the client answers to the insert. *)
Lemma forecast_table_outcome (prophet : Prophet V) (client : Client V)
    (db_name table_name : string) (interval : Z) (only_future : bool)
    (st st1 : RunState) (columns types : list string)
    (d0 : Z) (cells : list V) (data' : list (Z * list V)) :
  let describe := "DESCRIBE TABLE " +:+ db_name +:+ "." +:+ table_name in
  let select := "SELECT date, " +:+ Py.join ", " columns +:+ " FROM "
                +:+ db_name +:+ "." +:+ table_name +:+ " ORDER BY date" in
  let data := (d0, cells) :: data' in
  let last_known_date := max_date d0 (data'.*1) in
  let fd := collected prophet columns data last_known_date interval
              only_future columns [] in
  let insert := insert_text str_value str_date
                  (forecast_table_name db_name table_name) columns fd in
  let run := forecast_table str_value str_date prophet client db_name
               table_name interval only_future st in
  get_columns_and_types client db_name table_name st
  = (Ok (columns, types), st1) →
  select_rows client (queries st1) select = Answer data →
  queries run.2
  = queries st ++ [describe; select]
    ++ match fd with [] => [] | _ :: _ => [insert] end
  ∧ failed_tables run.2
    = failed_tables st
      ++ map (λ _, table_name)
           (failing prophet columns data last_known_date interval only_future
              columns)
  ∧ match fd with
    | [] =>
        run.1 = Ok ()
        ∧ successful_tables run.2 = successful_tables st ++ [table_name]
    | _ :: _ =>
        match execute client (queries st ++ [describe; select]) insert with
        | Answer _ =>
            run.1 = Ok ()
            ∧ successful_tables run.2 = successful_tables st ++ [table_name]
        | Error e =>
            run.1 = Raise (Exception e)
            ∧ successful_tables run.2 = successful_tables st
        end
    end.
Proof.
  intros describe select data last_known_date fd insert run Hcols Hsel.
  destruct (get_columns_and_types_effect _ _ _ _ _ _ _ Hcols)
    as (Hq & Hs & _ & _ & Hf & _ & _).
  set (st3 := extend (extend st1 (issued [select]))
                (extend
                   (failed (map (λ _, table_name)
                              (failing prophet columns data last_known_date
                                 interval only_future columns)))
                   (logged (failure_records prophet table_name columns data
                              last_known_date interval only_future columns)))).
  assert (run
          = (insert_forecast str_value str_date client
               (forecast_table_name db_name table_name) columns fd
             ≫= λ _, append_successful table_name) st3) as Hrun.
  { unfold run, forecast_table.
    erewrite bind_ok by exact Hcols. cbn beta iota. fold select.
    erewrite bind_ok by (by apply client_query_answer).
    unfold data. cbv iota. fold data. fold last_known_date.
    erewrite bind_ok by apply forecast_columns_run. reflexivity. }
  assert (queries st3 = queries st ++ [describe; select]) as Hq3.
  { simpl. by rewrite !List.app_nil_r, Hq, <- (assoc_L (++)). }
  assert (successful_tables st3 = successful_tables st) as Hs3
    by (simpl; by rewrite !List.app_nil_r).
  assert (failed_tables st3
          = failed_tables st
            ++ map (λ _, table_name)
                 (failing prophet columns data last_known_date interval
                    only_future columns)) as Hf3
    by (simpl; by rewrite !List.app_nil_r, Hf).
  assert (∀ d row, (d, row) ∈ fd → is_Some (row !! "date")) as Hdates
    by (intros d row; apply collected_has_date).
  assert (fd ≠ [] → columns ≠ []) as Hcolumns.
  { intros Hne Hnil. apply Hne. unfold fd. by rewrite Hnil. }
  rewrite Hrun. subst insert. clearbody fd st3. clear Hrun.
  destruct fd as [|r fd'].
  - erewrite bind_ok by reflexivity. rewrite append_successful_run. simpl.
    by rewrite !List.app_nil_r, Hq3, Hf3, Hs3.
  - specialize (Hcolumns ltac:(done)). rewrite <- Hq3.
    destruct (execute client (queries st3) _) as [[]|e] eqn:Hexec.
    + erewrite bind_ok by (by apply insert_forecast_run).
      rewrite append_successful_run. simpl.
      by rewrite !List.app_nil_r, Hq3, Hf3, Hs3, <- !(assoc_L (++)).
    + erewrite bind_raise; cycle 1.
      { unfold insert_forecast. rewrite query_values_text by done.
        rewrite <- insert_text_split by done.
        erewrite bind_raise; [reflexivity|]. by apply client_query_error. }
      simpl. by rewrite !List.app_nil_r, Hq3, Hf3, Hs3, <- !(assoc_L (++)).
Qed.

End Outcome.

Section PartialFailureRun.

Context {V : Type}.
Variable str_value : V → string.
Variable str_date : Z → string.

(** C2 (amended).  Let the schema inspection succeed and the source have
    rows.  Let the [try] block of column [a] go through (fit, prediction
    and the post-processing of the forecast) and that of column [b]
    raise, and let no other column that is merged have a field name
    ([c], [c_min], [c_max]) in common with [a], and no column that is
    merged have one in common with [b].  Then the collected rows hold,
    for every date predicted for [a], a row carrying the estimate and the
    bounds of a point of that date, and no row has a cell under [b],
    [b_min] or [b_max], so those fields are printed as [NULL]; these rows
    are what the one insert is built from, and the insert is sent when
    there is a row; the table is in the failed list.  The table is
    appended to the successful list if no insert is due or the client
    accepts it; if the client refuses the insert, [forecast_table] raises
    and the table is not appended. *)
Theorem C2_partial_failure (prophet : Prophet V) (client : Client V)
    (db_name table_name : string) (interval : Z) (only_future : bool)
    (st st1 : RunState) (columns types : list string)
    (d0 : Z) (cells : list V) (data' : list (Z * list V))
    (a b e : string) (pts : list (ForecastPoint V)) :
  let describe := "DESCRIBE TABLE " +:+ db_name +:+ "." +:+ table_name in
  let select := "SELECT date, " +:+ Py.join ", " columns +:+ " FROM "
                +:+ db_name +:+ "." +:+ table_name +:+ " ORDER BY date" in
  let data := (d0, cells) :: data' in
  let last_known_date := max_date d0 (data'.*1) in
  let forecast_of :=
    forecast_column prophet columns data last_known_date interval
      only_future in
  let run := forecast_table str_value str_date prophet client db_name
               table_name interval only_future st in
  get_columns_and_types client db_name table_name st
  = (Ok (columns, types), st1) →
  select_rows client (queries st1) select = Answer data →
  a ∈ columns → b ∈ columns →
  forecast_of a = Answer pts →
  forecast_of b = Error e →
  (∀ c rows key, c ∈ columns → c ≠ a → forecast_of c = Answer rows →
     key ∈ field_names [c] → key ∉ field_names [a]) →
  (∀ c rows key, c ∈ columns → forecast_of c = Answer rows →
     key ∈ field_names [c] → key ∉ field_names [b]) →
  ∃ fd values,
    (∀ s, (forecast_columns prophet table_name columns data
             last_known_date interval only_future columns [] s).1 = Ok fd)
    ∧ query_values str_value str_date columns fd = Answer values
    ∧ (pts ≠ [] → fd ≠ [])
    ∧ (∀ p, p ∈ pts →
         ∃ q row, q ∈ pts ∧ ds q = ds p ∧ (ds p, row) ∈ fd
                  ∧ row !! a = Some (CNum (yhat q))
                  ∧ row !! (a +:+ "_min") = Some (CNum (yhat_lower q))
                  ∧ row !! (a +:+ "_max") = Some (CNum (yhat_upper q)))
    ∧ (∀ d row key, (d, row) ∈ fd → key ∈ field_names [b] →
         row !! key = None
         ∧ render_field str_value str_date row key = "NULL")
    ∧ queries run.2
      = queries st ++ [describe; select]
        ++ match fd with
           | [] => []
           | _ :: _ =>
               [query_insert (forecast_table_name db_name table_name) columns
                +:+ values]
           end
    ∧ table_name ∈ failed_tables run.2
    ∧ match fd with
      | [] =>
          run.1 = Ok ()
          ∧ successful_tables run.2 = successful_tables st ++ [table_name]
      | _ :: _ =>
          match execute client (queries st ++ [describe; select])
                  (query_insert (forecast_table_name db_name table_name)
                     columns +:+ values) with
          | Answer _ =>
              run.1 = Ok ()
              ∧ successful_tables run.2 = successful_tables st ++ [table_name]
          | Error e' =>
              run.1 = Raise (Exception e')
              ∧ successful_tables run.2 = successful_tables st
          end
      end.
Proof.
  intros describe select data last_known_date forecast_of run
    Hcols Hsel Ha Hb Hpts Hfail Hclash_a Hclash_b.
  destruct (get_columns_and_types_effect _ _ _ _ _ _ _ Hcols)
    as (_ & _ & _ & _ & _ & _ & Hdate).
  destruct (forecast_table_outcome str_value str_date prophet client db_name
              table_name interval only_future st st1 columns types d0 cells
              data' Hcols Hsel) as (Hq & Hf & Hs).
  fold describe select data last_known_date run in Hq, Hf, Hs.
  set (fd := collected prophet columns data last_known_date interval
               only_future columns []) in *.
  assert (columns ≠ []) as Hcolumns by (intros Hnil; rewrite Hnil in Ha;
                                         by apply elem_of_nil in Ha).
  assert (∀ d row, (d, row) ∈ fd → is_Some (row !! "date")) as Hdates
    by (intros d row; apply collected_has_date).
  assert (∀ p, p ∈ pts →
            ∃ q row, q ∈ pts ∧ ds q = ds p ∧ (ds p, row) ∈ fd
                     ∧ row !! a = Some (CNum (yhat q))
                     ∧ row !! (a +:+ "_min") = Some (CNum (yhat_lower q))
                     ∧ row !! (a +:+ "_max") = Some (CNum (yhat_upper q)))
    as Hvalues by (intros p; by apply forecast_column_present).
  rewrite insert_text_split in Hq, Hs by done.
  eexists fd, _. split_and!.
  - intros s. by rewrite forecast_columns_run.
  - by apply query_values_text.
  - intros Hne Hnil. destruct pts as [|p pts']; [done|].
    destruct (Hvalues p) as (q & row & _ & _ & Hin & _); [by left|].
    rewrite Hnil in Hin. by apply elem_of_nil in Hin.
  - done.
  - intros d row key Hin Hkey.
    assert (row !! key = None) as Hnone
      by (by apply (failed_column_absent prophet columns data last_known_date
                      interval only_future b key d row)).
    split; [done|]. unfold render_field. by rewrite Hnone.
  - exact Hq.
  - rewrite Hf, elem_of_app. right.
    apply list_elem_of_fmap. exists b. split; [done|].
    apply list_elem_of_In, filter_In. split; [by apply list_elem_of_In|].
    fold forecast_of. by rewrite Hfail.
  - exact Hs.
Qed.

End PartialFailureRun.

(** ** The only-future filter on the rows of the insert *)

(** C5.  Let the schema inspection succeed, let the source have rows and
    let D be the largest of their dates.  Whatever the client answers to
    it, the one insert [forecast_table] sends has one tuple for each row
    of the collected [forecast_data], and each row carries the date it is
    bound to.  With [only_future] set, and an engine that predicts on the
    dates it is given, each of these dates is after D: no row with a date
    up to D is sent.  Without [only_future] the frame goes to [predict]
    unfiltered, and every row that [predict] returns for a column whose
    post-processing goes through is sent, whether or not its date is
    after D. *)
Theorem C5_only_future {V : Type} (str_value : V → string)
    (str_date : Z → string) (prophet : Prophet V) (client : Client V)
    (db_name table_name : string) (interval : Z) (only_future : bool)
    (st st1 : RunState) (columns types : list string)
    (d0 : Z) (cells : list V) (data' : list (Z * list V)) :
  let describe := "DESCRIBE TABLE " +:+ db_name +:+ "." +:+ table_name in
  let select := "SELECT date, " +:+ Py.join ", " columns +:+ " FROM "
                +:+ db_name +:+ "." +:+ table_name +:+ " ORDER BY date" in
  let data := (d0, cells) :: data' in
  let D := max_date d0 (data'.*1) in
  let run := forecast_table str_value str_date prophet client db_name
               table_name interval only_future st in
  get_columns_and_types client db_name table_name st
  = (Ok (columns, types), st1) →
  select_rows client (queries st1) select = Answer data →
  (∀ r, r ∈ data → r.1 ≤ D)
  ∧ D ∈ data.*1
  ∧ ∃ fd,
      queries run.2
      = queries st ++ [describe; select]
        ++ match fd with
           | [] => []
           | _ :: _ =>
               [insert_text str_value str_date
                  (forecast_table_name db_name table_name) columns fd]
           end
      ∧ (∀ d row, (d, row) ∈ fd → row !! "date" = Some (CDate d))
      ∧ (only_future = true →
         (∀ model future pts, predict prophet model future = Answer pts →
            ∀ p, p ∈ pts → ds p ∈ future) →
         ∀ d row, (d, row) ∈ fd → D < d)
      ∧ (only_future = false →
         ∀ col model future forecast p,
           col ∈ columns →
           fit prophet (series columns col data) = Answer model →
           make_future_dataframe prophet model interval = Answer future →
           predict prophet model future = Answer forecast →
           post_processing prophet col forecast = Answer () →
           p ∈ forecast →
           ∃ row, (ds p, row) ∈ fd).
Proof.
  intros describe select data D run Hcols Hsel.
  destruct (get_columns_and_types_effect _ _ _ _ _ _ _ Hcols)
    as (_ & _ & _ & _ & _ & _ & Hdate).
  destruct (forecast_table_outcome str_value str_date prophet client db_name
              table_name interval only_future st st1 columns types d0 cells
              data' Hcols Hsel) as (Hq & _ & _).
  fold describe select data D run in Hq.
  set (fd := collected prophet columns data D interval only_future columns [])
    in *.
  assert (NoDup fd.*1) as Hnd by (apply collected_NoDup; constructor).
  destruct (max_date_ge d0 (data'.*1)) as [Hd0 Hrest]. split_and!.
  - intros r [->|Hr]%elem_of_cons; [done|].
    apply Hrest, list_elem_of_fmap. by exists r.
  - unfold data, D. rewrite fmap_cons. apply max_date_elem.
  - exists fd. split_and!.
    + exact Hq.
    + intros d row Hin. apply (elem_row_of _ _ _ Hnd) in Hin. revert d row Hin.
      apply collected_rows.
      * intros col pts p _ _ _. apply lookup_singleton_eq.
      * intros col pts p row Hcol _ _ Hrow. rewrite with_point_date; [done|].
        intros ->. by apply Hdate.
      * done.
    + intros Hflag Hpredict d row Hin.
      assert (d ∈ fd.*1) as Hd by (apply list_elem_of_fmap; by exists (d, row)).
      apply collected_dates in Hd as [Hd|(col & pts & p & _ & Hpts & Hp & <-)].
      * by apply elem_of_nil in Hd.
      * rewrite Hflag in Hpts.
        by apply (forecast_column_future _ _ _ _ _ _ _ Hpredict Hpts).
    + intros Hflag col model future forecast p Hcol Hfit Hfuture Hforecast
        Hpost Hp.
      assert (ds p ∈ fd.*1) as Hd.
      { apply collected_dates. right. exists col, forecast, p.
        split_and!; [done| |done|done].
        unfold forecast_column, export_data.
        by rewrite Hfit, Hfuture, Hflag, Hforecast, Hpost. }
      apply list_elem_of_fmap in Hd as ([d row] & Heq & Hin).
      exists row. simpl in Heq. by rewrite Heq.
Qed.


(** ** The theorems on the sample database *)

Section Samples.

Local Abbreviation sample := (Demo.client "b" Demo.rows).

(** The condition on the field names cannot be dropped from a statement
    about [forecast_table]: on a table with the columns [a] and [a_min]
    the keys [a_min] of column [a] and of the column called [a_min]
    coincide.  When [a] is forecast and [a_min] raises, the rows carry a
    cell under [a_min], and the field of the failed column is printed as
    the lower bound of [a], not as [NULL].  (In [main] the create
    statement for such a table declares [a_min] twice; the forecast is
    reached when the client accepts it.) *)
Lemma field_names_can_collide :
  let client := Demo.client "a_min" Demo.rows in
  let columns := ["a"; "a_min"] in
  (get_columns_and_types client "db" "bucket_sales" initial_state).1
  = Ok (columns, ["Float64"; "Int32"])
  ∧ forecast_column Demo.engine columns Demo.rows 12 2 true "a"
    = Answer [mkPoint 13 113 103 123; mkPoint 14 114 104 124]
  ∧ forecast_column Demo.engine columns Demo.rows 12 2 true "a_min"
    = Error "bad series"
  ∧ (∃ fd st row,
       forecast_columns Demo.engine "bucket_sales" columns Demo.rows 12 2 true
         columns [] initial_state = (Ok fd, st)
       ∧ row_of 13 fd = Some row
       ∧ row !! "a_min" = Some (CNum 103)
       ∧ render_field Demo.str_Z Demo.str_Z row "a_min" = "103")
  ∧ last (queries
            (forecast_table Demo.str_Z Demo.str_Z Demo.engine client "db"
               "bucket_sales" 2 true initial_state).2)
    = Some (query_insert "db.bucket_forecast_sales" columns
            +:+ "('13', 113, 103, 103, NULL, 123, NULL), "
            +:+ "('14', 114, 104, 104, NULL, 124, NULL)").
Proof.
  intros client columns. split_and!; [reflexivity..| |by vm_compute].
  eexists _, _, _. split_and!; [apply forecast_columns_run|by vm_compute..].
Qed.

(** C2, as stated, fails when the fit and the prediction of [a] succeed
    and a later statement of the [try] block raises.  With one day to
    forecast and [only_future] set, the sample engine fits column [a] and
    predicts one row for it, the post-processing of that one-row frame
    raises, and the fit of column [b] raises: both columns are recorded
    as failed, no row is collected and no insert is sent, so nothing of
    [a] reaches the forecast table. *)
Lemma C2_failure_after_predict :
  let columns := ["a"; "b"] in
  (get_columns_and_types sample "db" "bucket_sales" initial_state).1
  = Ok (columns, ["Float64"; "Int32"])
  ∧ (∃ model future,
       fit Demo.short_frames (series columns "a" Demo.rows) = Answer model
       ∧ make_future_dataframe Demo.short_frames model 1 = Answer future
       ∧ predict Demo.short_frames model (filter (λ d, 12 < d) future)
         = Answer [mkPoint 13 113 103 123])
  ∧ fit Demo.short_frames (series columns "b" Demo.rows) = Error "bad series"
  ∧ (forecast_table Demo.str_Z Demo.str_Z Demo.short_frames sample "db"
       "bucket_sales" 1 true initial_state).1 = Ok ()
  ∧ queries (forecast_table Demo.str_Z Demo.str_Z Demo.short_frames sample
               "db" "bucket_sales" 1 true initial_state).2
    = ["DESCRIBE TABLE db.bucket_sales";
       "SELECT date, a, b FROM db.bucket_sales ORDER BY date"]
  ∧ failed_tables (forecast_table Demo.str_Z Demo.str_Z Demo.short_frames
                     sample "db" "bucket_sales" 1 true initial_state).2
    = ["bucket_sales"; "bucket_sales"]
  ∧ successful_tables (forecast_table Demo.str_Z Demo.str_Z Demo.short_frames
                         sample "db" "bucket_sales" 1 true initial_state).2
    = ["bucket_sales"].
Proof.
  intros columns. split_and!; [reflexivity| |reflexivity|by vm_compute..].
  exists [10; 12; 11], [10; 12; 11; 13]. by split_and!.
Qed.

(** C2 on the sample table: [a] is forecast, [b] raises, the client
    accepts the insert. *)
Lemma C2_partial_failure_witness :
  let run := forecast_table Demo.str_Z Demo.str_Z Demo.engine sample "db"
               "bucket_sales" 2 true initial_state in
  run.1 = Ok ()
  ∧ last (queries run.2)
    = Some (query_insert "db.bucket_forecast_sales" ["a"; "b"]
            +:+ "('13', 113, NULL, 103, NULL, 123, NULL), "
            +:+ "('14', 114, NULL, 104, NULL, 124, NULL)")
  ∧ "bucket_sales" ∈ failed_tables run.2
  ∧ successful_tables run.2 = ["bucket_sales"].
Proof.
  intros run.
  destruct (C2_partial_failure Demo.str_Z Demo.str_Z Demo.engine sample "db"
              "bucket_sales" 2 true initial_state
              (get_columns_and_types sample "db" "bucket_sales"
                 initial_state).2
              ["a"; "b"] ["Float64"; "Int32"] 10 [1; 2]
              [(12, [3; 4]); (11, [5; 6])] "a" "b" "bad series"
              [mkPoint 13 113 103 123; mkPoint 14 114 104 124])
    as (fd & values & Hfd & Hvalues & _ & _ & _ & Hq & Hf & Hs).
  - reflexivity.
  - reflexivity.
  - by left.
  - right. by left.
  - reflexivity.
  - reflexivity.
  - intros c rows key Hc Hne Hrows.
    apply elem_of_cons in Hc as [->|Hc]; [done|].
    apply list_elem_of_singleton in Hc as ->. discriminate Hrows.
  - intros c rows key Hc Hrows Hkey Hclash.
    apply elem_of_cons in Hc as [->|Hc].
    + repeat (apply elem_of_cons in Hkey as [->|Hkey]);
        try (by apply elem_of_nil in Hkey);
        repeat (apply elem_of_cons in Hclash as [Hclash|Hclash]);
        try (by apply elem_of_nil in Hclash); discriminate Hclash.
    + apply list_elem_of_singleton in Hc as ->. discriminate Hrows.
  - fold run in Hq, Hf, Hs.
    specialize (Hfd initial_state). rewrite forecast_columns_run in Hfd.
    injection Hfd as <-. vm_compute in Hvalues. injection Hvalues as <-.
    split_and!; [apply Hs|by rewrite Hq|exact Hf|apply Hs].
Defined.

(** C3 on a forecast table named in the comma-separated selection. *)
Lemma C3_forecast_tables_are_skipped_witness :
  candidate (TablesStr "bucket_sales,bucket_forecast_x") "bucket_forecast_x"
  ∧ Py.startswith "bucket_forecast_" "bucket_forecast_x" = true
  ∧ process_table Demo.str_Z Demo.str_Z Demo.engine sample "db" 2
      (TablesStr "bucket_sales,bucket_forecast_x") true "bucket_forecast_x"
      initial_state
    = (Ok (), mkRunState [] [] [] [] ["bucket_forecast_x"] [] []).
Proof.
  assert (candidate (TablesStr "bucket_sales,bucket_forecast_x")
            "bucket_forecast_x") as Hcand.
  { right. apply (bool_decide_unpack _). by vm_compute. }
  split_and!; [exact Hcand|reflexivity|].
  apply (C3_forecast_tables_are_skipped Demo.str_Z Demo.str_Z Demo.engine
           sample "db" 2 _ true "bucket_forecast_x" initial_state Hcand).
  reflexivity.
Defined.

(** C4 on the description of the sample table. *)
Lemma C4_retained_columns_witness :
  ∃ columns types st',
    get_columns_and_types sample "db" "bucket_sales" initial_state
    = (Ok (columns, types), st')
    ∧ length columns = length types
    ∧ ∀ column type_,
        (column, type_) ∈ zip columns types ↔
        (∃ rest, (column, type_, rest) ∈ Demo.describe_rows "b")
        ∧ column ≠ "date"
        ∧ ∀ skip_type, skip_type ∈ SKIP_DATA_TYPES →
                       ¬ occurs_in skip_type type_.
Proof.
  apply (C4_retained_columns sample "db" "bucket_sales" initial_state
           (Demo.describe_rows "b")).
  reflexivity.
Defined.

(** The sample engine predicts on the dates it is given. *)
Lemma engine_predicts_given_dates (model : Model Demo.engine)
    (future : list Z) (pts : list (ForecastPoint Z)) :
  predict Demo.engine model future = Answer pts →
  ∀ p, p ∈ pts → ds p ∈ future.
Proof.
  destruct future as [|d future]; [done|]. intros [= <-] p Hp.
  apply elem_of_cons in Hp as [->|Hp]; [by left|]. right.
  apply list_elem_of_fmap in Hp as (x & -> & Hx). exact Hx.
Defined.

(** C5 on the sample table: with [only_future] the dates of the rows sent
    are after the last known date 12; without it the row of the known
    date 10 is sent as well. *)
Lemma C5_only_future_witness :
  let D := max_date 10 [12; 11] in
  let run only_future :=
    forecast_table Demo.str_Z Demo.str_Z Demo.engine sample "db"
      "bucket_sales" 2 only_future initial_state in
  (∃ fd,
     last (queries (run true).2)
     = Some (insert_text Demo.str_Z Demo.str_Z "db.bucket_forecast_sales"
               ["a"; "b"] fd)
     ∧ fd ≠ []
     ∧ ∀ d row, (d, row) ∈ fd → D < d)
  ∧ (∃ fd row,
       last (queries (run false).2)
       = Some (insert_text Demo.str_Z Demo.str_Z "db.bucket_forecast_sales"
                 ["a"; "b"] fd)
       ∧ (10, row) ∈ fd
       ∧ 10 ≤ D).
Proof.
  intros D run. split.
  - destruct (C5_only_future Demo.str_Z Demo.str_Z Demo.engine sample "db"
                "bucket_sales" 2 true initial_state
                (get_columns_and_types sample "db" "bucket_sales"
                   initial_state).2
                ["a"; "b"] ["Float64"; "Int32"] 10 [1; 2]
                [(12, [3; 4]); (11, [5; 6])])
      as (_ & _ & fd & Hq & Hdates & Hfuture & _); [reflexivity..|].
    assert (fd ≠ []) as Hfd.
    { intros ->. vm_compute in Hq. discriminate Hq. }
    exists fd. split_and!; [|exact Hfd|].
    + unfold run. rewrite Hq. destruct fd as [|r fd']; [done|].
      reflexivity.
    + exact (Hfuture eq_refl engine_predicts_given_dates).
  - destruct (C5_only_future Demo.str_Z Demo.str_Z Demo.engine sample "db"
                "bucket_sales" 2 false initial_state
                (get_columns_and_types sample "db" "bucket_sales"
                   initial_state).2
                ["a"; "b"] ["Float64"; "Int32"] 10 [1; 2]
                [(12, [3; 4]); (11, [5; 6])])
      as (_ & _ & fd & Hq & _ & _ & Hpast); [reflexivity..|].
    destruct (Hpast eq_refl "a" [10; 12; 11] [10; 12; 11; 13; 14]
                (map (λ d, mkPoint d (100 + d) (90 + d) (110 + d))
                   [10; 12; 11; 13; 14])
                (mkPoint 10 110 100 120)) as (row & Hrow);
      [by left|reflexivity..|by left|].
    exists fd, row. split_and!; [|exact Hrow|by vm_compute].
    unfold run. rewrite Hq. destruct fd as [|r fd']; [|reflexivity].
    by apply elem_of_nil in Hrow.
Defined.

(** C6 on the sample table, whose forecast table exists. *)
Lemma C6_create_forecast_table_witness :
  ∃ st',
    create_forecast_table sample "db" "bucket_sales" ["a"; "b"]
      ["Float64"; "Int32"] initial_state = (Ok (), st')
    ∧ updated_tables st' = ["bucket_sales"]
    ∧ new_tables st' = [].
Proof.
  destruct (C6_create_forecast_table sample "db" "bucket_sales" ["a"; "b"]
              ["Float64"; "Int32"] initial_state 1)
    as (st' & Hrun & _ & Hu & Hn & _).
  - reflexivity.
  - reflexivity.
  - by exists st'.
Defined.

(** C7 on one row that has a value for [a] only. *)
Lemma C7_bulk_insert_witness :
  let fd : ForecastData Z :=
    [(13, <["a" := CNum 113]> {["date" := CDate 13]})] in
  ∃ st',
    insert_forecast Demo.str_Z Demo.str_Z sample "db.bucket_forecast_sales"
      ["a"] fd initial_state = (Ok (), st')
    ∧ queries st'
      = [query_insert "db.bucket_forecast_sales" ["a"]
         +:+ "('13', 113, NULL, NULL)"].
Proof.
  intros fd.
  destruct (C7_bulk_insert Demo.str_Z Demo.str_Z sample
              "db.bucket_forecast_sales" ["a"] fd initial_state)
    as [(st' & Hrun & Hq) _].
  - discriminate.
  - discriminate.
  - intros d row Hin. apply list_elem_of_singleton in Hin.
    injection Hin as -> ->. exists (CDate 13). by vm_compute.
  - reflexivity.
  - exists st'. split; [exact Hrun|]. rewrite Hq. by vm_compute.
Defined.

(** C8 on a source whose two columns both make the engine raise. *)
Lemma C8_no_rows_no_insert_witness :
  let client := Demo.client "b" [(10, [2; 2])] in
  ∃ st',
    forecast_table Demo.str_Z Demo.str_Z Demo.engine client "db"
      "bucket_sales" 2 true initial_state = (Ok (), st')
    ∧ queries st'
      = ["DESCRIBE TABLE db.bucket_sales";
         "SELECT date, a, b FROM db.bucket_sales ORDER BY date"]
    ∧ successful_tables st' = ["bucket_sales"].
Proof.
  intros client.
  set (st1 := (get_columns_and_types client "db" "bucket_sales"
                 initial_state).2).
  set (st2 := (client_query (select_rows client)
                 "SELECT date, a, b FROM db.bucket_sales ORDER BY date"
                 st1).2).
  set (st3 := (forecast_columns Demo.engine "bucket_sales" ["a"; "b"]
                 [(10, [2; 2])] 10 2 true ["a"; "b"] [] st2).2).
  apply (C8_no_rows_no_insert Demo.str_Z Demo.str_Z Demo.engine client
           "db" "bucket_sales" 2 true initial_state st1 st2 st3
           ["a"; "b"] ["Float64"; "Int32"] 10 [2; 2] []); reflexivity.
Defined.

(** C9 on an empty source. *)
Lemma C9_empty_source_witness :
  let client := Demo.client "b" [] in
  ∃ st',
    forecast_table Demo.str_Z Demo.str_Z Demo.engine client "db"
      "bucket_sales" 2 true initial_state = (Ok (), st')
    ∧ failed_tables st' = ["bucket_sales"]
    ∧ successful_tables st' = [].
Proof.
  intros client.
  destruct (C9_empty_source Demo.str_Z Demo.str_Z client "db" "bucket_sales"
              2 true initial_state
              (get_columns_and_types client "db" "bucket_sales"
                 initial_state).2
              ["a"; "b"] ["Float64"; "Int32"])
    as (st' & Hrun & _ & _ & Hf & Hs & _).
  - reflexivity.
  - reflexivity.
  - exists st'. split_and!; [apply Hrun|exact Hf|exact Hs].
Defined.

(** C10 on a run over the whole sample database. *)
Lemma C10_summary_witness :
  (Demo.run "b" TablesNone true).1 = Ok ()
  ∧ ∃ records,
      log_records (Demo.run "b" TablesNone true).2
      = records
        ++ [(INFO, "Prognoseverfahren erfolgreich beendet. Dauer: 42 Sekunden");
            (INFO, "Tabelleninformationen: Erfolgreich: 3, Neu: 1, "
                   +:+ "Aktualisiert: 1, " +:+ Uuml
                   +:+ "bersprungen: -1, Fehlerhaft: 2");
            (INFO, dashes)].
Proof.
  split; [by vm_compute|].
  destruct (C10_summary Demo.str_Z Demo.str_Z Demo.str_Z Demo.engine
              (Answer sample) 42 "db" 2 TablesNone true initial_state
              (Demo.run "b" TablesNone true).2)
    as [(records & Hlog) _].
  - by vm_compute.
  - exists records. rewrite Hlog. reflexivity.
Defined.

End Samples.

(** * Further properties of the script *)

(** ** The run state only grows *)

Section Growth.

Context {V Duration : Type}.
Variable str_value : V → string.
Variable str_date : Z → string.
Variable format_2f : Duration → string.
Variable prophet : Prophet V.

Lemma grows_refl (st : RunState) : grows st st.
Proof. exists initial_state. by rewrite extend_initial. Qed.

Lemma grows_trans (st1 st2 st3 : RunState) :
  grows st1 st2 → grows st2 st3 → grows st1 st3.
Proof.
  intros [d1 ->] [d2 ->]. exists (extend d1 d2). apply extend_assoc.
Qed.

Lemma appends_only_ret {A} (a : A) : appends_only (mret a).
Proof. intros st. apply grows_refl. Qed.

Lemma appends_only_raise {A} (e : exn) : appends_only (raise (A:=A) e).
Proof. intros st. apply grows_refl. Qed.

Lemma appends_only_bind {A B} (m : M A) (f : A → M B) :
  appends_only m → (∀ a, appends_only (f a)) → appends_only (m ≫= f).
Proof.
  intros Hm Hf st. specialize (Hm st). unfold mbind, M_bind.
  destruct (m st) as [[a|e] st1]; simpl in *; [|done].
  apply (grows_trans _ st1); [done | apply Hf].
Qed.

Lemma appends_only_logging (lvl : Level) (msg : string) :
  appends_only (logging lvl msg).
Proof. intros st. rewrite logging_run. by eexists. Qed.

Lemma appends_only_client_query {A}
    (oracle : list string → string → answer A) (q : string) :
  appends_only (client_query oracle q).
Proof.
  intros st. exists (issued [q]). unfold client_query, extend.
  destruct (oracle (queries st) q); simpl; by rewrite !List.app_nil_r.
Qed.

Lemma appends_only_get_columns_and_types (client : Client V)
    (db_name table_name : string) :
  appends_only (get_columns_and_types client db_name table_name).
Proof.
  apply appends_only_bind; [apply appends_only_client_query|].
  intros columns_info st. rewrite columns_loop_run. by eexists.
Qed.

Lemma appends_only_create_forecast_table (client : Client V)
    (db_name table_name : string) (columns types : list string) :
  appends_only (create_forecast_table client db_name table_name columns types).
Proof.
  apply appends_only_bind; [apply appends_only_client_query|]. intros cell.
  apply appends_only_bind.
  { destruct (bool_decide (cell = 1)); [|apply appends_only_ret].
    apply appends_only_bind; [apply appends_only_logging|].
    intros _. apply appends_only_client_query. }
  intros _. apply appends_only_bind; [apply appends_only_client_query|].
  intros _. destruct (negb (bool_decide (cell = 1)));
    (apply appends_only_bind; [apply appends_only_logging|]); intros _ st.
  - rewrite append_new_run. by eexists.
  - rewrite append_updated_run. by eexists.
Qed.

Lemma appends_only_insert_forecast (client : Client V) (target : string)
    (columns : list string) (fd : ForecastData V) :
  appends_only (insert_forecast str_value str_date client target columns fd).
Proof.
  unfold insert_forecast. destruct fd as [|r fd]; [apply appends_only_ret|].
  destruct (query_values _ _ _ _); [|apply appends_only_raise].
  apply appends_only_bind; [apply appends_only_client_query|].
  intros _. apply appends_only_logging.
Qed.

Lemma appends_only_forecast_table (client : Client V)
    (db_name table_name : string) (interval : Z) (only_future : bool) :
  appends_only (forecast_table str_value str_date prophet client db_name
                  table_name interval only_future).
Proof.
  apply appends_only_bind; [apply appends_only_get_columns_and_types|].
  intros [columns types].
  apply appends_only_bind; [apply appends_only_client_query|].
  intros [|[d cells] data'].
  - apply appends_only_bind; [apply appends_only_logging|]. intros _ st.
    rewrite append_failed_run. by eexists.
  - apply appends_only_bind.
    { intros st. rewrite forecast_columns_run. by eexists. }
    intros fd. apply appends_only_bind; [apply appends_only_insert_forecast|].
    intros _ st. rewrite append_successful_run. by eexists.
Qed.

Lemma appends_only_process_table (client : Client V) (db_name : string)
    (interval : Z) (specific_tables : SpecificTables) (only_future : bool)
    (table : string) :
  appends_only (process_table str_value str_date prophet client db_name
                  interval specific_tables only_future table).
Proof.
  unfold process_table.
  destruct (filtered_out specific_tables table); [apply appends_only_ret|].
  destruct (Py.startswith "bucket_forecast_" table).
  { intros st. rewrite append_skipped_run. by eexists. }
  apply appends_only_bind; [apply appends_only_logging|]. intros _.
  apply appends_only_bind; [apply appends_only_get_columns_and_types|].
  intros [columns types].
  apply appends_only_bind; [apply appends_only_create_forecast_table|].
  intros _. apply appends_only_forecast_table.
Qed.

Lemma appends_only_process_tables (client : Client V) (db_name : string)
    (interval : Z) (specific_tables : SpecificTables) (only_future : bool)
    (tables : list string) :
  appends_only (process_tables str_value str_date prophet client db_name
                  interval specific_tables only_future tables).
Proof.
  induction tables as [|table tables IH]; [apply appends_only_ret|].
  apply appends_only_bind; [apply appends_only_process_table|]. by intros _.
Qed.

Lemma appends_only_get_tables (client : Client V) (db_name : string) :
  appends_only (get_tables client db_name).
Proof.
  apply appends_only_bind; [apply appends_only_logging|]. intros _.
  apply appends_only_bind; [apply appends_only_client_query|]. intros tables.
  apply appends_only_ret.
Qed.

Lemma appends_only_main (get_client : answer (Client V))
    (duration : Duration) (db_name : string) (interval : Z)
    (specific_tables : SpecificTables) (only_future : bool) :
  appends_only (main str_value str_date format_2f prophet get_client duration
                  db_name interval specific_tables only_future).
Proof.
  apply appends_only_bind.
  { destruct get_client as [client|e]; simpl;
      (apply appends_only_bind; [apply appends_only_logging|]); intros _.
    - apply appends_only_ret.
    - apply appends_only_raise. }
  intros client. apply appends_only_bind.
  { destruct specific_tables as [|s|l]; simpl;
      [apply appends_only_get_tables| |apply appends_only_get_tables].
    destruct (negb (bool_decide (s = "")));
      [apply appends_only_ret | apply appends_only_get_tables]. }
  intros tables.
  apply appends_only_bind; [apply appends_only_process_tables|]. intros _.
  apply appends_only_bind; [apply appends_only_logging|]. intros _.
  apply appends_only_bind; [intros st; apply grows_refl|]. intros st0.
  apply appends_only_bind; [apply appends_only_logging|]. intros _.
  apply appends_only_logging.
Qed.

(** X1.  Whatever the database and the engine answer and however the run
    ends, the script only appends: each of the five lists, the statements
    sent and the log at the start is a prefix of what it is at the end. *)
Theorem X1_script_only_appends (get_client : answer (Client V))
    (duration : Duration) (db_name : string) (interval : Z)
    (arg : option string) (only_future : bool) (st : RunState) :
  let st' := (script str_value str_date format_2f prophet get_client duration
                db_name interval arg only_future st).2 in
  successful_tables st `prefix_of` successful_tables st'
  ∧ new_tables st `prefix_of` new_tables st'
  ∧ updated_tables st `prefix_of` updated_tables st'
  ∧ failed_tables st `prefix_of` failed_tables st'
  ∧ skipped_tables st `prefix_of` skipped_tables st'
  ∧ queries st `prefix_of` queries st'
  ∧ log_records st `prefix_of` log_records st'.
Proof.
  intros st'.
  assert (grows st st') as [d Hd].
  { unfold st', script.
    pose proof (appends_only_main get_client duration db_name interval
                  (command_line_tables arg) only_future st) as Hmain.
    destruct (main _ _ _ _ _ _ _ _ _ _ st) as [[[]|[e|code]] st1];
      cbn [snd] in *; try done.
    apply (grows_trans _ st1); [done|].
    apply (appends_only_logging ERROR _ st1). }
  rewrite Hd. split_and!; by eexists.
Qed.

End Growth.

(** ** How a run ends *)

Section Outcomes.

Context {V Duration : Type}.
Variable str_value : V → string.
Variable str_date : Z → string.
Variable format_2f : Duration → string.
Variable prophet : Prophet V.

(** X2.  When the connection cannot be opened, the script logs the
    failure and leaves with exit status 1: no statement is sent, no list
    changes, the exception hook is not involved and no summary is
    logged. *)
Theorem X2_connection_failure (e : string) (duration : Duration)
    (db_name : string) (interval : Z) (arg : option string)
    (only_future : bool) (st : RunState) :
  script str_value str_date format_2f prophet (Error e) duration db_name
    interval arg only_future st
  = (Raise (SystemExit 1),
     mkRunState (successful_tables st) (new_tables st) (updated_tables st)
       (failed_tables st) (skipped_tables st) (queries st)
       (log_records st
        ++ [(ERROR, "Fehler beim Verbinden mit der ClickHouse Datenbank: "
                    +:+ e)]))
  ∧ exit_status (script str_value str_date format_2f prophet (Error e)
                   duration db_name interval arg only_future st).1 = 1.
Proof. split; reflexivity. Qed.

(** Rows that carry a date are rendered without a [KeyError]. *)
Lemma render_rows_answer (columns : list string)
    (rows : list (gmap string (Cell V))) :
  (∀ row, row ∈ rows → is_Some (row !! "date")) →
  ∃ ts, render_rows str_value str_date columns rows = Answer ts.
Proof.
  induction rows as [|row rows IH]; intros Hdate; [by eexists|].
  destruct (Hdate row) as [date Hrow]; [by left|].
  destruct IH as [ts Hts]; [intros r Hr; apply Hdate; by right|].
  cbn [render_rows]. unfold render_row. rewrite Hrow, Hts. by eexists.
Qed.

Lemma query_values_answer (columns todo : list string)
    (columns' : list string) (data : list (Z * list V))
    (last_known_date interval : Z) (only_future : bool) :
  ∃ values,
    query_values str_value str_date columns
      (collected prophet columns' data last_known_date interval only_future
         todo [])
    = Answer values.
Proof.
  unfold query_values.
  destruct (render_rows_answer columns
              (collected prophet columns' data last_known_date interval
                 only_future todo []).*2) as [ts Hts].
  - intros row ([d r] & -> & Hin)%list_elem_of_fmap.
    by apply (collected_has_date prophet columns' data last_known_date
                interval only_future todo d).
  - rewrite Hts. by eexists.
Qed.

Lemma create_forecast_table_ok (client : Client V)
    (db_name table_name : string) (columns types : list string)
    (st : RunState) :
  responsive client →
  ∃ st', create_forecast_table client db_name table_name columns types st
         = (Ok (), st').
Proof.
  intros (_ & _ & Hexists & Hexec & _). unfold create_forecast_table.
  destruct (Hexists (queries st)
              ("EXISTS TABLE " +:+ create_forecast_table_name db_name
                                     table_name)) as [cell Hcell].
  erewrite bind_ok by (by apply client_query_answer).
  destruct (bool_decide (cell = 1)).
  - erewrite bind_ok; cycle 1.
    { erewrite bind_ok by apply logging_run. by apply client_query_answer. }
    erewrite bind_ok by (by apply client_query_answer).
    cbn [negb]. erewrite bind_ok by apply logging_run.
    rewrite append_updated_run. by eexists.
  - erewrite bind_ok by done.
    erewrite bind_ok by (by apply client_query_answer).
    cbn [negb]. erewrite bind_ok by apply logging_run.
    rewrite append_new_run. by eexists.
Qed.

Lemma forecast_table_ok (client : Client V) (db_name table_name : string)
    (interval : Z) (only_future : bool) (st : RunState) :
  responsive client →
  ∃ st', forecast_table str_value str_date prophet client db_name table_name
           interval only_future st = (Ok (), st').
Proof.
  intros (_ & Hdescribe & _ & Hexec & Hselect). unfold forecast_table.
  destruct (Hdescribe (queries st)
              ("DESCRIBE TABLE " +:+ db_name +:+ "." +:+ table_name))
    as [columns_info Hinfo].
  erewrite bind_ok by (by apply get_columns_and_types_run). cbn beta iota.
  match goal with
  | |- context [client_query (select_rows client) ?q ≫= _] =>
      match goal with
      | |- context [(_ ≫= _) ?s] =>
          destruct (Hselect (queries s) q) as [data Hdata]
      end
  end.
  erewrite bind_ok by (by apply client_query_answer).
  destruct data as [|[d cells] data'].
  - erewrite bind_ok by apply logging_run. rewrite append_failed_run.
    by eexists.
  - erewrite bind_ok by apply forecast_columns_run.
    match goal with
    | |- context [insert_forecast _ _ _ ?target ?cols ?fd] =>
        destruct (query_values_answer cols cols cols ((d, cells) :: data')
                    (max_date d data'.*1) interval only_future)
          as [values Hvalues];
        destruct fd as [|r fd'] eqn:Hfd
    end.
    + erewrite bind_ok by done. rewrite append_successful_run. by eexists.
    + erewrite bind_ok; cycle 1.
      { unfold insert_forecast. rewrite Hvalues.
        erewrite bind_ok by (by apply client_query_answer).
        apply logging_run. }
      rewrite append_successful_run. by eexists.
Qed.

Lemma process_tables_ok (client : Client V) (db_name : string)
    (interval : Z) (specific_tables : SpecificTables) (only_future : bool)
    (tables : list string) (st : RunState) :
  responsive client →
  ∃ st', process_tables str_value str_date prophet client db_name interval
           specific_tables only_future tables st = (Ok (), st').
Proof.
  intros Hclient. revert st.
  induction tables as [|table tables IH]; intros st; [by eexists|].
  cbn [process_tables].
  assert (∃ st1, process_table str_value str_date prophet client db_name
                   interval specific_tables only_future table st
                 = (Ok (), st1)) as [st1 Hst1].
  { unfold process_table.
    destruct (filtered_out specific_tables table); [by eexists|].
    destruct (Py.startswith "bucket_forecast_" table); [by eexists|].
    erewrite bind_ok by apply logging_run.
    destruct Hclient as (Hshow & Hdescribe & Hrest).
    match goal with
    | |- context [(get_columns_and_types _ _ _ ≫= _) ?s] =>
        destruct (Hdescribe (queries s)
                    ("DESCRIBE TABLE " +:+ db_name +:+ "." +:+ table))
          as [columns_info Hinfo]
    end.
    erewrite bind_ok by (by apply get_columns_and_types_run). cbn beta iota.
    match goal with
    | |- context [(create_forecast_table _ _ _ ?c ?t ≫= _) ?s] =>
        destruct (create_forecast_table_ok client db_name table c t s)
          as [st2 Hst2]; [done|]
    end.
    erewrite bind_ok by exact Hst2. by apply forecast_table_ok. }
  erewrite bind_ok by exact Hst1. apply IH.
Qed.

(** X3.  With a client that hands out a connection and answers every
    statement, the script runs to the end whatever the engine does: its
    exit status is 0 and the last record it logs is the rule after the
    summary.  No failure of a forecast can abort the run. *)
Theorem X3_responsive_database_completes (client : Client V)
    (duration : Duration) (db_name : string) (interval : Z)
    (arg : option string) (only_future : bool) (st : RunState) :
  responsive client →
  ∃ st',
    script str_value str_date format_2f prophet (Answer client) duration
      db_name interval arg only_future st = (Ok (), st')
    ∧ exit_status
        (script str_value str_date format_2f prophet (Answer client) duration
           db_name interval arg only_future st).1 = 0
    ∧ last (log_records st') = Some (INFO, dashes).
Proof.
  intros Hclient.
  cut (∃ st',
         script str_value str_date format_2f prophet (Answer client) duration
           db_name interval arg only_future st = (Ok (), st')
         ∧ last (log_records st') = Some (INFO, dashes)).
  { intros (st' & Hrun & Hlast). exists st'. by rewrite Hrun. }
  unfold script, main, get_clickhouse_connection.
  erewrite bind_ok; cycle 1.
  { erewrite bind_ok by apply logging_run. reflexivity. }
  assert (∀ s, ∃ tables s',
            select_tables client db_name (command_line_tables arg) s
            = (Ok tables, s')) as Hselect.
  { intros s. unfold select_tables.
    assert (∃ tables s', get_tables client db_name s = (Ok tables, s'))
      as Hget.
    { unfold get_tables. erewrite bind_ok by apply logging_run.
      destruct Hclient as (Hshow & _).
      match goal with
      | |- context [(client_query _ ?q ≫= _) ?s0] =>
          destruct (Hshow (queries s0) q) as [rows Hrows]
      end.
      erewrite bind_ok by (by apply client_query_answer). by eexists _, _. }
    destruct (command_line_tables arg) as [|s0|l]; [done| |done].
    destruct (truthy (TablesStr s0)); [by eexists _, _ | done]. }
  match goal with
  | |- context [(select_tables _ _ _ ≫= _) ?s] =>
      destruct (Hselect s) as (tables & s1 & Hs1)
  end.
  erewrite bind_ok by exact Hs1.
  destruct (process_tables_ok client db_name interval
              (command_line_tables arg) only_future tables s1 Hclient)
    as [s2 Hs2].
  erewrite bind_ok by exact Hs2.
  erewrite bind_ok by apply logging_run.
  erewrite bind_ok by reflexivity.
  erewrite bind_ok by apply logging_run.
  rewrite logging_run. eexists. split; [reflexivity|].
  simpl. by rewrite last_snoc.
Qed.

End Outcomes.

(** ** What a completed loop has recorded *)

Section Accounting.

Context {V : Type}.
Variable str_value : V → string.
Variable str_date : Z → string.
Variable prophet : Prophet V.

Lemma lists_extend_quiet (st d : RunState) :
  quiet d → lists (extend st d) = lists st.
Proof.
  intros (H1 & H2 & H3 & H4 & H5). unfold lists, extend. simpl.
  by rewrite H1, H2, H3, H4, H5, !List.app_nil_r.
Qed.

Lemma client_query_lists {A} (oracle : list string → string → answer A)
    (q : string) (st st1 : RunState) (r : result A) :
  client_query oracle q st = (r, st1) →
  lists st1 = lists st ∧ queries st1 = queries st ++ [q].
Proof.
  unfold client_query. destruct (oracle (queries st) q); by intros [= _ <-].
Qed.

Lemma logging_lists (lvl : Level) (msg : string) (st st1 : RunState)
    (r : result unit) :
  logging lvl msg st = (r, st1) →
  lists st1 = lists st ∧ queries st1 = queries st.
Proof. by intros [= _ <-]. Qed.

Lemma get_columns_and_types_lists (client : Client V)
    (db_name table_name : string) (st st1 : RunState)
    (r : result (list string * list string)) :
  get_columns_and_types client db_name table_name st = (r, st1) →
  lists st1 = lists st.
Proof.
  unfold get_columns_and_types. unfold mbind, M_bind.
  destruct (client_query _ _ st) as [[columns_info|e] s1] eqn:Hq;
    apply client_query_lists in Hq as [Hl _].
  - rewrite columns_loop_run. intros [= _ <-].
    by rewrite lists_extend_quiet.
  - by intros [= _ <-].
Qed.

Lemma insert_forecast_lists (client : Client V) (target : string)
    (columns : list string) (fd : ForecastData V) (st st1 : RunState)
    (r : result unit) :
  insert_forecast str_value str_date client target columns fd st = (r, st1) →
  lists st1 = lists st.
Proof.
  unfold insert_forecast. destruct fd as [|row fd]; [by intros [= _ <-]|].
  destruct (query_values _ _ _ _); [|by intros [= _ <-]].
  unfold mbind, M_bind.
  destruct (client_query _ _ st) as [[u|e] s1] eqn:Hq;
    apply client_query_lists in Hq as [Hl _].
  - intros [Hl1 _]%logging_lists. by rewrite Hl1.
  - by intros [= _ <-].
Qed.

(** A pass of [create_forecast_table] that ends normally has recorded
    the table once, as new or as updated, and nothing else. *)
Lemma create_forecast_table_inv (client : Client V)
    (db_name table_name : string) (columns types : list string)
    (st st' : RunState) :
  create_forecast_table client db_name table_name columns types st
  = (Ok (), st') →
  successful_tables st' = successful_tables st
  ∧ failed_tables st' = failed_tables st
  ∧ skipped_tables st' = skipped_tables st
  ∧ (new_tables st' = new_tables st ++ [table_name]
     ∧ updated_tables st' = updated_tables st
     ∨ new_tables st' = new_tables st
       ∧ updated_tables st' = updated_tables st ++ [table_name]).
Proof.
  unfold create_forecast_table. intros H.
  apply bind_inv in H as (cell & s1 & [Hl1 _]%client_query_lists & H).
  apply bind_inv in H as ([] & s2 & Hdrop & H).
  assert (lists s2 = lists s1) as Hl2.
  { destruct (bool_decide (cell = 1)); [|by injection Hdrop as <-].
    apply bind_inv in Hdrop as ([] & s & [Hl _]%logging_lists & Hdrop).
    apply client_query_lists in Hdrop as [Hl' _]. by rewrite Hl'. }
  apply bind_inv in H as ([] & s3 & [Hl3 _]%client_query_lists & H).
  assert (lists s3 = lists st) as Hl by (by rewrite Hl3, Hl2).
  injection Hl as Hs Hn Hu Hf Hk.
  destruct (negb (bool_decide (cell = 1)));
    apply bind_inv in H as ([] & s4 & [Hl4 _]%logging_lists & H);
    injection Hl4 as Hs4 Hn4 Hu4 Hf4 Hk4; injection H as <-; simpl;
    rewrite Hs4, Hn4, Hu4, Hf4, Hk4, Hs, Hn, Hu, Hf, Hk;
    (split_and!; [done..|]); first [by left | by right].
Qed.

(** A pass of [forecast_table] that ends normally has recorded the table
    as successful, with one failed entry per failing column, or, on an
    empty source, as failed only. *)
Lemma forecast_table_inv (client : Client V) (db_name table_name : string)
    (interval : Z) (only_future : bool) (st st' : RunState) :
  forecast_table str_value str_date prophet client db_name table_name
    interval only_future st = (Ok (), st') →
  new_tables st' = new_tables st
  ∧ updated_tables st' = updated_tables st
  ∧ skipped_tables st' = skipped_tables st
  ∧ ∃ k, failed_tables st' = failed_tables st ++ replicate k table_name
         ∧ (successful_tables st' = successful_tables st ++ [table_name]
            ∨ successful_tables st' = successful_tables st ∧ k = 1%nat).
Proof.
  unfold forecast_table. intros H.
  apply bind_inv in H as ([columns types] & s1 & Hl1 & H).
  apply get_columns_and_types_lists in Hl1.
  apply bind_inv in H as (data & s2 & [Hl2 _]%client_query_lists & H).
  assert (lists s2 = lists st) as Hl by (by rewrite Hl2).
  injection Hl as Hs Hn Hu Hf Hk.
  destruct data as [|[d cells] data'].
  - apply bind_inv in H as ([] & s3 & [Hl3 _]%logging_lists & H).
    injection Hl3 as Hs3 Hn3 Hu3 Hf3 Hk3. injection H as <-. simpl.
    rewrite Hs3, Hn3, Hu3, Hf3, Hk3, Hs, Hn, Hu, Hf, Hk.
    split_and!; [done..|]. exists 1%nat. auto.
  - apply bind_inv in H as (fd & s3 & Hloop & H).
    rewrite forecast_columns_run in Hloop. injection Hloop as _ <-.
    apply bind_inv in H as ([] & s4 & Hl4%insert_forecast_lists & H).
    injection Hl4 as Hs4 Hn4 Hu4 Hf4 Hk4. injection H as <-. simpl in *.
    rewrite Hs4, Hn4, Hu4, Hf4, Hk4, Hs, Hn, Hu, Hf, Hk, !List.app_nil_r.
    split_and!; [done..|]. eexists. rewrite map_const_replicate. auto.
Qed.

Lemma process_table_inv (client : Client V) (db_name : string)
    (interval : Z) (specific_tables : SpecificTables) (only_future : bool)
    (table : string) (st st' : RunState) :
  process_table str_value str_date prophet client db_name interval
    specific_tables only_future table st = (Ok (), st') →
  skipped_tables st'
  = skipped_tables st
    ++ (if is_skipped specific_tables table then [table] else [])
  ∧ (if is_processed specific_tables table
     then (new_tables st' = new_tables st ++ [table]
           ∧ updated_tables st' = updated_tables st
           ∨ new_tables st' = new_tables st
             ∧ updated_tables st' = updated_tables st ++ [table])
          ∧ ∃ k, failed_tables st' = failed_tables st ++ replicate k table
                 ∧ (successful_tables st' = successful_tables st ++ [table]
                    ∨ successful_tables st' = successful_tables st
                      ∧ k = 1%nat)
     else new_tables st' = new_tables st
          ∧ updated_tables st' = updated_tables st
          ∧ failed_tables st' = failed_tables st
          ∧ successful_tables st' = successful_tables st).
Proof.
  unfold process_table, is_skipped, is_processed.
  destruct (filtered_out specific_tables table); cbn [negb andb].
  { intros [= <-]. by rewrite List.app_nil_r. }
  destruct (Py.startswith "bucket_forecast_" table); cbn [negb].
  { by intros [= <-]. }
  intros H. apply bind_inv in H as ([] & s1 & [Hl1 _]%logging_lists & H).
  apply bind_inv in H as ([columns types] & s2 & Hl2 & H).
  apply get_columns_and_types_lists in Hl2.
  assert (lists s2 = lists st) as Hl by (by rewrite Hl2).
  injection Hl as Hs Hn Hu Hf Hk.
  apply bind_inv in H as ([] & s3 & Hcreate & H).
  apply create_forecast_table_inv in Hcreate as (Hs3 & Hf3 & Hk3 & Hnu).
  apply forecast_table_inv in H as (Hn4 & Hu4 & Hk4 & k & Hf4 & Hs4).
  rewrite Hk4, Hk3, Hk, List.app_nil_r, Hn4, Hu4, Hf4, Hf3, Hf.
  rewrite Hn, Hu in Hnu. rewrite Hs3, Hs in Hs4.
  split_and!; [done|done|]. by exists k.
Qed.

End Accounting.

Section AccountingLoop.

Context {V : Type}.
Variable str_value : V → string.
Variable str_date : Z → string.
Variable prophet : Prophet V.

(** X4.  When the loop of [main] over a list of names ends normally, the
    names added to the skipped list are exactly the selected forecast
    tables, in order; every other selected name has been recorded once as
    new or as updated; the names added to the successful list are among
    them, in order and at most once each; every failed entry added is one
    of them; and each of them is in the successful or in the failed
    list. *)
Theorem X4_completed_loop_accounts_for_every_table (client : Client V)
    (db_name : string) (interval : Z) (specific_tables : SpecificTables)
    (only_future : bool) (tables : list string) (st st' : RunState) :
  let processed := List.filter (is_processed specific_tables) tables in
  process_tables str_value str_date prophet client db_name interval
    specific_tables only_future tables st = (Ok (), st') →
  skipped_tables st'
  = skipped_tables st ++ List.filter (is_skipped specific_tables) tables
  ∧ new_tables st' ++ updated_tables st'
    ≡ₚ new_tables st ++ updated_tables st ++ processed
  ∧ (∃ l, successful_tables st' = successful_tables st ++ l
          ∧ l `sublist_of` processed)
  ∧ (∃ l, failed_tables st' = failed_tables st ++ l
          ∧ ∀ t, t ∈ l → t ∈ processed)
  ∧ (∀ t, t ∈ processed →
          t ∈ successful_tables st' ∨ t ∈ failed_tables st').
Proof.
  intros processed. unfold processed. clear processed. revert st.
  induction tables as [|table tables IH]; intros st H.
  - injection H as <-. rewrite !List.app_nil_r. split_and!; [done..| | |].
    + exists []. split; [by rewrite List.app_nil_r | constructor].
    + exists []. split; [by rewrite List.app_nil_r|].
      intros t Ht. by apply elem_of_nil in Ht.
    + intros t Ht. by apply elem_of_nil in Ht.
  - cbn [process_tables] in H.
    apply bind_inv in H as ([] & st1 & Htable & H).
    apply process_table_inv in Htable as (Hk1 & Hrest).
    destruct (IH st1 H) as (Hk & Hnu & (ls & Hs & Hsub) & (lf & Hf & Hin) & Hall).
    cbn [List.filter]. unfold is_skipped, is_processed in *.
    destruct (filtered_out specific_tables table); cbn [negb andb] in *.
    { destruct Hrest as (Hn1 & Hu1 & Hf1 & Hs1).
      rewrite Hk, Hk1, List.app_nil_r, <- Hn1, <- Hu1, <- Hs1, <- Hf1.
      split_and!; [done..| | |done]; eauto. }
    destruct (Py.startswith "bucket_forecast_" table); cbn [negb] in *.
    { destruct Hrest as (Hn1 & Hu1 & Hf1 & Hs1).
      rewrite Hk, Hk1, <- (assoc_L (++)), <- Hn1, <- Hu1, <- Hs1, <- Hf1.
      split_and!; [done..| | |done]; eauto. }
    destruct Hrest as (Hnu1 & k & Hf1 & Hs1).
    rewrite Hk, Hk1, List.app_nil_r. split_and!.
    + done.
    + rewrite Hnu.
      destruct Hnu1 as [[-> ->]|[-> ->]]; solve_Permutation.
    + rewrite Hs. destruct Hs1 as [->|[-> _]].
      * exists (table :: ls). rewrite <- (assoc_L (++)). split; [done|].
        by apply sublist_skip.
      * exists ls. split; [done|]. by apply sublist_cons.
    + rewrite Hf, Hf1. exists (replicate k table ++ lf).
      rewrite <- (assoc_L (++)). split; [done|].
      intros t [Ht|Ht]%elem_of_app.
      * apply elem_of_replicate in Ht as [-> _]. by left.
      * right. by apply Hin.
    + intros t [->|Ht]%elem_of_cons; [|by apply Hall].
      rewrite Hs, Hf, !elem_of_app.
      destruct Hs1 as [->|[_ ->]].
      * left. left. apply elem_of_app. right. by left.
      * right. left. rewrite Hf1. apply elem_of_app. right. by left.
Qed.

End AccountingLoop.

(** ** Errors of the database client *)

Section ClientErrors.

Context {V Duration : Type}.
Variable str_value : V → string.
Variable str_date : Z → string.
Variable format_2f : Duration → string.
Variable prophet : Prophet V.

Lemma process_tables_app (client : Client V) (db_name : string)
    (interval : Z) (specific_tables : SpecificTables) (only_future : bool)
    (l1 l2 : list string) (st : RunState) :
  process_tables str_value str_date prophet client db_name interval
    specific_tables only_future (l1 ++ l2) st
  = (process_tables str_value str_date prophet client db_name interval
       specific_tables only_future l1 ;;
     process_tables str_value str_date prophet client db_name interval
       specific_tables only_future l2) st.
Proof.
  revert st. induction l1 as [|table l1 IH]; intros st; [done|].
  cbn [app process_tables]. unfold mbind, M_bind in *.
  destruct (process_table _ _ _ _ _ _ _ _ _ st) as [[[]|e] st1]; [|done].
  apply IH.
Qed.

(** X5.  An error of the client is not caught per table.  When the
    [DESCRIBE] of a table the loop has reached raises, the script stops
    there: the statement is the last one sent, so the tables after it are
    never looked at; no summary is logged; the exception hook writes the
    last log record; the exit status is 1. *)
Theorem X5_client_error_aborts_the_run (client : Client V)
    (duration : Duration) (db_name : string) (interval : Z)
    (arg : option string) (only_future : bool)
    (pre rest : list string) (table e : string) (st s0 st1 : RunState) :
  let specific_tables := command_line_tables arg in
  let describe := "DESCRIBE TABLE " +:+ db_name +:+ "." +:+ table in
  select_tables client db_name specific_tables
    (logging INFO "Verbindung zur ClickHouse Datenbank erfolgreich hergestellt"
       st).2
  = (Ok (pre ++ table :: rest), s0) →
  process_tables str_value str_date prophet client db_name interval
    specific_tables only_future pre s0 = (Ok (), st1) →
  is_processed specific_tables table = true →
  describe_table client (queries st1) describe = Error e →
  script str_value str_date format_2f prophet (Answer client) duration
    db_name interval arg only_future st
  = (Raise (Exception e),
     mkRunState (successful_tables st1) (new_tables st1) (updated_tables st1)
       (failed_tables st1) (skipped_tables st1)
       (queries st1 ++ [describe])
       (log_records st1
        ++ [(INFO, "Starte Verarbeitung von " +:+ db_name +:+ "." +:+ table);
            (ERROR, "Beim Ausf" +:+ uuml
               +:+ "hren des Skripts ist folgender Fehler aufgetreten:")]))
  ∧ exit_status
      (script str_value str_date format_2f prophet (Answer client) duration
         db_name interval arg only_future st).1 = 1.
Proof.
  intros specific_tables describe Hselect Hpre Hproc Hdescribe.
  assert (main str_value str_date format_2f prophet (Answer client) duration
            db_name interval specific_tables only_future st
          = (Raise (Exception e),
             mkRunState (successful_tables st1) (new_tables st1)
               (updated_tables st1) (failed_tables st1) (skipped_tables st1)
               (queries st1 ++ [describe])
               (log_records st1
                ++ [(INFO, "Starte Verarbeitung von " +:+ db_name +:+ "."
                           +:+ table)])))
    as Hmain.
  { unfold main, get_clickhouse_connection.
    erewrite bind_ok; cycle 1.
    { erewrite bind_ok by reflexivity. reflexivity. }
    erewrite bind_ok by exact Hselect.
    erewrite bind_raise; [reflexivity|].
    rewrite process_tables_app. erewrite bind_ok by exact Hpre.
    cbn [process_tables]. erewrite bind_raise; [reflexivity|].
    unfold process_table. unfold is_processed in Hproc.
    apply andb_true_iff in Hproc as [Hf Hp].
    apply negb_true_iff in Hf, Hp. rewrite Hf, Hp.
    erewrite bind_ok by reflexivity.
    erewrite bind_raise; [reflexivity|].
    unfold get_columns_and_types. erewrite bind_raise; [reflexivity|].
    unfold client_query. cbn [queries]. fold describe. by rewrite Hdescribe. }
  unfold script. fold specific_tables. rewrite Hmain. cbn [fst snd].
  split; [|reflexivity]. unfold log_exception, logging. cbn.
  by rewrite <- (assoc_L (++)).
Qed.

(** X6.  [create_forecast_table] is not atomic: when the forecast table
    exists and the drop is accepted but the create statement raises, the
    call raises after the table has been dropped, and the source table is
    recorded neither as new nor as updated. *)
Theorem X6_failed_create_after_drop (client : Client V)
    (db_name table_name : string) (columns types : list string)
    (st : RunState) (e : string) :
  let name := create_forecast_table_name db_name table_name in
  let check := "EXISTS TABLE " +:+ name in
  let drop := "DROP TABLE " +:+ name in
  let create := query_create name (columns_definitions columns types) in
  exists_table client (queries st) check = Answer 1 →
  execute client (queries st ++ [check]) drop = Answer () →
  execute client (queries st ++ [check; drop]) create = Error e →
  ∃ st',
    create_forecast_table client db_name table_name columns types st
    = (Raise (Exception e), st')
    ∧ queries st' = queries st ++ [check; drop; create]
    ∧ lists st' = lists st.
Proof.
  intros name check drop create Hcheck Hdrop Hcreate.
  unfold create_forecast_table. fold name check.
  erewrite bind_ok; cycle 1.
  { unfold client_query. rewrite Hcheck. reflexivity. }
  cbn [bool_decide decide_rel]. rewrite bool_decide_eq_true_2 by done.
  erewrite bind_ok; cycle 1.
  { erewrite bind_ok by reflexivity. unfold client_query. cbn [queries].
    fold drop. rewrite Hdrop. reflexivity. }
  erewrite bind_raise; cycle 1.
  { unfold client_query. cbn [queries]. fold create.
    rewrite <- (assoc_L (++)). cbn [app]. rewrite Hcreate. reflexivity. }
  eexists. split; [reflexivity|]. cbn. by rewrite <- !(assoc_L (++)).
Qed.

(** X7.  When the insert raises, [forecast_table] raises with it: the
    table is not appended to the successful list, while the failed
    entries of the columns that raised stay. *)
Theorem X7_failed_insert (client : Client V) (db_name table_name : string)
    (interval : Z) (only_future : bool) (st st1 st2 st3 : RunState)
    (columns types : list string) (d : Z) (cells : list V)
    (data' : list (Z * list V)) (fd : ForecastData V) (values e : string) :
  let select := "SELECT date, " +:+ Py.join ", " columns +:+ " FROM "
                +:+ db_name +:+ "." +:+ table_name +:+ " ORDER BY date" in
  let data := (d, cells) :: data' in
  let insert := query_insert (forecast_table_name db_name table_name) columns
                +:+ values in
  get_columns_and_types client db_name table_name st
  = (Ok (columns, types), st1) →
  client_query (select_rows client) select st1 = (Ok data, st2) →
  forecast_columns prophet table_name columns data (max_date d (data'.*1))
    interval only_future columns [] st2 = (Ok fd, st3) →
  fd ≠ [] →
  query_values str_value str_date columns fd = Answer values →
  execute client (queries st3) insert = Error e →
  ∃ st',
    forecast_table str_value str_date prophet client db_name table_name
      interval only_future st = (Raise (Exception e), st')
    ∧ queries st' = queries st3 ++ [insert]
    ∧ successful_tables st' = successful_tables st
    ∧ failed_tables st' = failed_tables st3.
Proof.
  intros select data insert Hcols Hsel Hloop Hfd Hvalues Hinsert.
  pose proof (get_columns_and_types_lists _ _ _ _ _ _ Hcols) as Hl1.
  pose proof (client_query_lists _ _ _ _ _ Hsel) as [Hl2 _].
  pose proof Hloop as Hl3. rewrite forecast_columns_run in Hl3.
  injection Hl3 as _ Hst3.
  assert (successful_tables st3 = successful_tables st) as Hs.
  { rewrite <- Hst3. simpl. rewrite !List.app_nil_r.
    injection Hl2 as -> _. by injection Hl1 as ->. }
  unfold forecast_table.
  erewrite bind_ok by exact Hcols. cbn beta iota. fold select.
  erewrite bind_ok by exact Hsel. unfold data. cbv iota. fold data.
  erewrite bind_ok by exact Hloop.
  erewrite bind_raise; cycle 1.
  { unfold insert_forecast. destruct fd as [|r fd']; [done|].
    rewrite Hvalues. fold insert. erewrite bind_raise; [reflexivity|].
    by apply client_query_error. }
  eexists. split; [reflexivity|]. simpl.
  by rewrite !List.app_nil_r.
Qed.

End ClientErrors.

(** ** Names of forecast tables, continued *)

Section MoreNames.

Lemma length_slice_from (n : nat) (s : string) :
  String.length (Py.slice_from n s) = (String.length s - n)%nat.
Proof.
  revert s. induction n as [|n IH]; intros [|a s]; simpl; done.
Qed.

Lemma rev_app_spec (s acc : string) :
  String.rev_app s acc = String.rev s +:+ acc.
Proof.
  unfold String.rev. revert acc. induction s as [|a s IH]; intros acc; [done|].
  simpl. rewrite (IH (String a acc)), (IH (String a "")).
  by rewrite str_app_assoc.
Qed.

Lemma rev_cons (a : ascii) (s : string) :
  String.rev (String a s) = String.rev s +:+ String a "".
Proof. unfold String.rev at 1. simpl. apply rev_app_spec. Qed.

Lemma rev_app (s t : string) :
  String.rev (s +:+ t) = String.rev t +:+ String.rev s.
Proof.
  induction s as [|a s IH].
  - by rewrite str_app_nil_l, str_app_nil_r.
  - by rewrite str_app_cons, !rev_cons, IH, str_app_assoc.
Qed.

Lemma rev_involutive (s : string) : String.rev (String.rev s) = s.
Proof.
  induction s as [|a s IH]; [done|]. by rewrite rev_cons, rev_app, IH.
Qed.

Lemma lstrip_app (u : string) (c : ascii) (w : string) :
  Py.isspace c = false →
  Py.lstrip (u +:+ String c w) = Py.lstrip u +:+ String c w.
Proof.
  intros Hc. induction u as [|a u IH].
  - rewrite str_app_nil_l. simpl. by rewrite Hc.
  - rewrite str_app_cons. simpl. by destruct (Py.isspace a).
Qed.

(** Stripping keeps a leading [bucket_]. *)
Lemma strip_bucket (x : string) :
  Py.strip ("bucket_" +:+ x) = "bucket_" +:+ Py.rstrip x.
Proof.
  unfold Py.strip. change (Py.lstrip ("bucket_" +:+ x)) with ("bucket_" +:+ x).
  unfold Py.rstrip. rewrite rev_app.
  change (String.rev "bucket_") with ("_tekcub").
  rewrite lstrip_app by done. rewrite rev_app.
  by change (String.rev "_tekcub") with "bucket_".
Qed.

(** X8.  The table [forecast_table] inserts into is the table
    [create_forecast_table] has created exactly when the source name,
    stripped of surrounding white space, starts with [bucket_], or is
    empty. *)
Theorem X8_insert_target_is_created_table (db_name table_name : string) :
  forecast_table_name db_name table_name
  = create_forecast_table_name db_name table_name
  ↔ Py.startswith "bucket_" (Py.strip table_name) = true ∨ table_name = "".
Proof.
  unfold forecast_table_name, create_forecast_table_name.
  destruct (Py.startswith "bucket_" (Py.strip table_name)) eqn:Hp.
  - split; [by left | done].
  - split.
    + intros H. right.
      apply (inj (String.app db_name)), (inj (String.app ".bucket_forecast_"))
        in H.
      apply (f_equal String.length) in H. rewrite length_slice_from in H.
      destruct table_name; [done | simpl in H; lia].
    + by intros [? | ->].
Qed.

(** X9.  The naming is not injective: a table [x] whose stripped name
    does not start with [bucket_] and the table [bucket_x] are different
    tables with one and the same forecast table. *)
Theorem X9_two_sources_one_forecast_table (db_name x : string) :
  Py.startswith "bucket_" (Py.strip x) = false →
  "bucket_" +:+ x ≠ x
  ∧ create_forecast_table_name db_name ("bucket_" +:+ x)
    = create_forecast_table_name db_name x.
Proof.
  intros Hx. split.
  - intros H. apply (f_equal String.length) in H.
    rewrite !str_app_cons, str_app_nil_l in H. simpl in H. lia.
  - unfold create_forecast_table_name. rewrite Hx, strip_bucket.
    assert (Py.startswith "bucket_" ("bucket_" +:+ Py.rstrip x) = true) as ->
      by (apply startswith_spec; by eexists).
    reflexivity.
Qed.

End MoreNames.

(** ** The rows of [forecast_data], continued *)

Section MoreRows.

Context {V : Type}.
Variable str_value : V → string.
Variable str_date : Z → string.
Variable prophet : Prophet V.
Variables (table_name : string) (columns : list string)
  (data : list (Z * list V)) (last_known_date interval : Z)
  (only_future : bool).

Local Abbreviation forecast_of :=
  (forecast_column prophet columns data last_known_date interval only_future).
Local Abbreviation collect :=
  (collected prophet columns data last_known_date interval only_future).

Lemma merge_point_prefix (col : string) (p : ForecastPoint V)
    (fd : ForecastData V) :
  fd.*1 `prefix_of` (merge_point col p fd).*1.
Proof.
  rewrite merge_point_dates. case_bool_decide; [done|]. by eexists.
Qed.

Lemma merge_points_prefix (col : string) (pts : list (ForecastPoint V))
    (fd : ForecastData V) :
  fd.*1 `prefix_of` (merge_points col pts fd).*1.
Proof.
  revert fd. induction pts as [|p pts IH]; intros fd; [done|].
  etrans; [apply (merge_point_prefix col p)|apply IH].
Qed.

Lemma collected_prefix (todo : list string) (fd : ForecastData V) :
  fd.*1 `prefix_of` (collect todo fd).*1.
Proof.
  revert fd. induction todo as [|col todo IH]; intros fd; [done|].
  cbn [collected]. destruct (forecast_of col) as [pts|e]; [|apply IH].
  etrans; [apply (merge_points_prefix col pts)|apply IH].
Qed.

(** X10.  The loop over the columns keeps [forecast_data] a dictionary
    and never moves a row: if the dates bound at the start are distinct,
    so are the dates bound in the end, and they begin with the dates bound
    at the start, in the same order.  The insert therefore has one tuple
    per date, in the order in which the dates were first predicted. *)
Theorem X10_rows_stay_distinct_and_in_place (todo : list string)
    (fd : ForecastData V) (st : RunState) :
  NoDup fd.*1 →
  ∃ fd' st',
    forecast_columns prophet table_name columns data last_known_date
      interval only_future todo fd st = (Ok fd', st')
    ∧ NoDup fd'.*1
    ∧ fd.*1 `prefix_of` fd'.*1.
Proof.
  intros Hnd. eexists _, _. split; [apply forecast_columns_run|].
  split; [by apply collected_NoDup | apply collected_prefix].
Qed.

(** X11.  The loop over the rows of one forecast appends its dates in
    the order of the forecast: when these dates are distinct and none is
    bound yet, the dates bound afterwards are the old ones followed by
    the dates of the forecast. *)
Theorem X11_new_dates_follow_the_forecast (col : string)
    (pts : list (ForecastPoint V)) (fd : ForecastData V) :
  NoDup (fd.*1 ++ map ds pts) →
  (merge_points col pts fd).*1 = fd.*1 ++ map ds pts.
Proof.
  revert fd. induction pts as [|p pts IH]; intros fd Hnd.
  - simpl. by rewrite List.app_nil_r.
  - change (merge_points col (p :: pts) fd)
      with (merge_points col pts (merge_point col p fd)).
    assert (ds p ∉ fd.*1) as Hfresh.
    { apply NoDup_app in Hnd as (_ & Hdisj & _). intros Hin.
      apply (Hdisj _ Hin). by left. }
    assert ((merge_point col p fd).*1 = fd.*1 ++ [ds p]) as Hp
      by (by rewrite merge_point_dates, bool_decide_eq_false_2).
    rewrite IH, Hp, <- (assoc_L (++)); [done|].
    by rewrite Hp, <- (assoc_L (++)).
Qed.

Lemma with_point_keeps_key (col key : string) (p : ForecastPoint V)
    (row : gmap string (Cell V)) :
  is_Some (row !! key) → is_Some (with_point col p row !! key).
Proof. intros H. unfold with_point. rewrite !lookup_insert_is_Some'. auto. Qed.

Lemma merge_points_keeps_keys (col : string) (pts : list (ForecastPoint V))
    (fd : ForecastData V) (d : Z) (row : gmap string (Cell V)) :
  row_of d fd = Some row →
  ∃ row', row_of d (merge_points col pts fd) = Some row'
          ∧ ∀ key, is_Some (row !! key) → is_Some (row' !! key).
Proof.
  revert fd row. induction pts as [|p pts IH]; intros fd row Hrow.
  - by exists row.
  - change (merge_points col (p :: pts) fd)
      with (merge_points col pts (merge_point col p fd)).
    destruct (decide (d = ds p)) as [->|Hd].
    + destruct (IH (merge_point col p fd) (with_point col p row))
        as (row' & Hrow' & Hkeys).
      { by rewrite row_of_merge_point, bool_decide_eq_true_2, Hrow. }
      exists row'. split; [done|]. intros key Hkey.
      by apply Hkeys, with_point_keeps_key.
    + apply IH. by rewrite row_of_merge_point, bool_decide_eq_false_2.
Qed.

Lemma merge_points_fills (col : string) (pts : list (ForecastPoint V))
    (fd : ForecastData V) (d : Z) :
  d ∈ map ds pts →
  ∃ row, row_of d (merge_points col pts fd) = Some row
         ∧ (∀ key, key ∈ [col; col +:+ "_min"; col +:+ "_max"] →
                   is_Some (row !! key))
         ∧ ∀ row0 key, row_of d fd = Some row0 → is_Some (row0 !! key) →
                       is_Some (row !! key).
Proof.
  intros (p & -> & Hp)%list_elem_of_fmap.
  destruct (merge_points_value col pts fd p Hp)
    as (q & row & _ & _ & Hrow & Hy & Hlo & Hup).
  exists row. split_and!; [done| |].
  - intros key Hkey.
    repeat (apply elem_of_cons in Hkey as [->|Hkey]);
      [by rewrite Hy|by rewrite Hlo|by rewrite Hup|by apply elem_of_nil in Hkey].
  - intros row0 key Hrow0 Hkey.
    destruct (merge_points_keeps_keys col pts fd (ds p) row0 Hrow0)
      as (row' & Hrow' & Hkeys).
    rewrite Hrow in Hrow'. injection Hrow' as <-. by apply Hkeys.
Qed.

Lemma collected_fills (todo : list string) (fd : ForecastData V) (d : Z)
    (row0 : gmap string (Cell V)) :
  row_of d fd = Some row0 →
  (∀ col, col ∈ todo → ∃ pts, forecast_of col = Answer pts ∧ d ∈ map ds pts) →
  ∃ row, row_of d (collect todo fd) = Some row
         ∧ (∀ key, is_Some (row0 !! key) → is_Some (row !! key))
         ∧ ∀ col key, col ∈ todo →
             key ∈ [col; col +:+ "_min"; col +:+ "_max"] →
             is_Some (row !! key).
Proof.
  revert fd row0. induction todo as [|col todo IH]; intros fd row0 Hrow0 Hall.
  - exists row0. split_and!; [done..|]. intros col key Hcol.
    by apply elem_of_nil in Hcol.
  - cbn [collected]. destruct (Hall col) as (pts & Hpts & Hd); [by left|].
    rewrite Hpts.
    destruct (merge_points_fills col pts fd d Hd) as (row1 & Hrow1 & Hcol & Hold).
    destruct (IH _ _ Hrow1) as (row & Hrow & Hkeep & Hrest).
    { intros c Hc. apply Hall. by right. }
    exists row. split_and!; [done| |].
    + intros key Hkey. by apply Hkeep, (Hold row0).
    + intros c key [->|Hc]%elem_of_cons Hkey.
      * by apply Hkeep, Hcol.
      * by apply (Hrest c).
Qed.

(** When the [try] block of every column goes through up to the loop
    over the rows, no column is listed as failing. *)
Lemma failing_nil (todo : list string) :
  (∀ col, col ∈ todo → ∃ pts, forecast_of col = Answer pts) →
  failing prophet columns data last_known_date interval only_future todo = [].
Proof.
  induction todo as [|col todo IH]; intros Hall; [done|].
  unfold failing. cbn [List.filter].
  destruct (Hall col) as (pts & ->); [by left|]. cbn [is_error].
  apply IH. intros c Hc. apply Hall. by right.
Qed.

(** X12.  When, for every column, the [try] block goes through up to the
    loop over the rows (the fit, the prediction and the post-processing
    of lines 179-185) and the exported rows cover the date [d], then no
    failure is recorded and the row collected for [d] has a cell under
    every field of the insert, so no field of its tuple is printed as
    [NULL] for want of a value. *)
Theorem X12_complete_rows_have_every_field (todo : list string) (d : Z)
    (st : RunState) :
  todo ≠ [] →
  (∀ col, col ∈ todo → ∃ pts, forecast_of col = Answer pts ∧ d ∈ map ds pts) →
  ∃ fd st' row,
    forecast_columns prophet table_name columns data last_known_date
      interval only_future todo [] st = (Ok fd, st')
    ∧ failed_tables st' = failed_tables st
    ∧ (d, row) ∈ fd
    ∧ ∀ key, key ∈ field_names todo → is_Some (row !! key).
Proof.
  intros Htodo Hall.
  assert (failing prophet columns data last_known_date interval only_future
            todo = []) as Hnone.
  { apply failing_nil. intros c Hc. destruct (Hall c Hc) as (pts & Hpts & _).
    by exists pts. }
  destruct todo as [|col todo]; [done|].
  destruct (Hall col) as (pts & Hpts & Hd); [by left|].
  destruct (merge_points_fills col pts [] d Hd) as (row1 & Hrow1 & Hcol & _).
  destruct (collected_fills todo _ d row1 Hrow1) as (row & Hrow & Hkeep & Hrest).
  { intros c Hc. apply Hall. by right. }
  eexists _, _, row. split; [apply forecast_columns_run|].
  split; [rewrite Hnone; simpl; by rewrite List.app_nil_r|].
  cbn [collected]. rewrite Hpts. split; [by apply row_of_elem|].
  assert (∀ c key, c ∈ col :: todo →
            key ∈ [c; c +:+ "_min"; c +:+ "_max"] → is_Some (row !! key))
    as Hkeys.
  { intros c key [->|Hc]%elem_of_cons Hkey.
    - by apply Hkeep, Hcol.
    - by apply (Hrest c). }
  intros key. unfold field_names. rewrite !elem_of_app, !list_elem_of_fmap.
  intros [Hk|[(c & -> & Hc)|(c & -> & Hc)]].
  - apply (Hkeys key); [done|by left].
  - apply (Hkeys c); [done|]. right. by left.
  - apply (Hkeys c); [done|]. right. right. by left.
Qed.

(** X13.  The rows the loop collects always carry their date, whatever
    the columns are called, so building the values of the insert from
    them never fails on the lookup of ['date']. *)
Theorem X13_collected_rows_render (todo columns' : list string)
    (st : RunState) :
  ∃ fd st' values,
    forecast_columns prophet table_name columns data last_known_date
      interval only_future todo [] st = (Ok fd, st')
    ∧ (∀ d row, (d, row) ∈ fd → is_Some (row !! "date"))
    ∧ query_values str_value str_date columns' fd = Answer values.
Proof.
  destruct (query_values_answer str_value str_date prophet columns' todo
              columns data last_known_date interval only_future)
    as [values Hvalues].
  eexists _, _, values. split; [apply forecast_columns_run|].
  split; [|done]. intros d row. apply collected_has_date.
Qed.

End MoreRows.

(** ** Selection of tables and of columns, continued *)

Section MoreSelection.

Context {V : Type}.

Lemma split_cons_not_nil (c : ascii) (s : string) : Py.split c s ≠ [].
Proof.
  destruct (split_head_prefix c s) as (w & ws & post & -> & _). done.
Qed.

(** Joining the pieces of a split with the separator gives the string
    back. *)
Lemma join_split (c : ascii) (s : string) :
  Py.join (String c "") (Py.split c s) = s.
Proof.
  induction s as [|a s IH]; [done|]. simpl.
  destruct (Py.split c s) as [|w ws] eqn:Hs; [by destruct (split_cons_not_nil c s)|].
  case_bool_decide as Hc.
  - subst a. rewrite join_cons, IH. done.
  - destruct ws as [|w' ws].
    + simpl in *. by rewrite IH.
    + rewrite join_cons in *. by rewrite str_app_cons, IH.
Qed.

Lemma split_pieces_without_separator (c : ascii) (s t : string) :
  t ∈ Py.split c s → ¬ occurs_in (String c "") t.
Proof.
  revert t. induction s as [|a s IH]; simpl; intros t Hin.
  - apply list_elem_of_singleton in Hin as ->.
    intros ([|? ?] & post & H); discriminate H.
  - destruct (split_head_prefix c s) as (w & ws & _ & Hs & _).
    rewrite Hs in Hin, IH. case_bool_decide as Hc.
    + apply elem_of_cons in Hin as [->|Hin]; [|by apply IH].
      intros ([|? ?] & post & H); discriminate H.
    + apply elem_of_cons in Hin as [->|Hin]; [|apply IH; by right].
      intros ([|b pre] & post & H).
      * rewrite str_app_nil_l, str_app_cons in H. by injection H as -> _.
      * rewrite str_app_cons in H. injection H as _ H.
        apply (IH w); [by left|]. by exists pre, post.
Qed.

(** X14.  A non-empty selection string is taken apart at its commas and
    nothing else happens to it: the catalog is not asked and the state is
    left alone; the names are the pieces as written, so that joining them
    with commas gives the string back and no name contains a comma; and
    none of them is passed over by the loop. *)
Theorem X14_selection_string_is_split_at_commas (client : Client V)
    (db_name s : string) (st : RunState) :
  s ≠ "" →
  select_tables client db_name (TablesStr s) st = (Ok (Py.split "," s), st)
  ∧ Py.join "," (Py.split "," s) = s
  ∧ ∀ table, table ∈ Py.split "," s →
      ¬ occurs_in "," table ∧ filtered_out (TablesStr s) table = false.
Proof.
  intros Hs. split_and!.
  - unfold select_tables, truthy. by rewrite bool_decide_eq_false_2.
  - apply join_split.
  - intros table Hin. split; [by apply (split_pieces_without_separator _ s)|].
    apply candidate_not_filtered_out. by right.
Qed.

(** X15.  From the command line the first test of the loop never passes
    over a name: every name [main] iterates over is either skipped as a
    forecast table or processed. *)
Theorem X15_command_line_never_filters (client : Client V) (db_name : string)
    (arg : option string) (st st' : RunState) (tables : list string)
    (table : string) :
  select_tables client db_name (command_line_tables arg) st = (Ok tables, st') →
  table ∈ tables →
  filtered_out (command_line_tables arg) table = false
  ∧ (is_skipped (command_line_tables arg) table
     = Py.startswith "bucket_forecast_" table)
  ∧ (is_processed (command_line_tables arg) table
     = negb (Py.startswith "bucket_forecast_" table)).
Proof.
  intros Hsel Hin.
  assert (filtered_out (command_line_tables arg) table = false) as Hf.
  { apply candidate_not_filtered_out.
    apply (selected_is_candidate client db_name _ st st' tables); [done..|].
    intros l Hl. destruct arg as [s|]; [|done]. simpl in Hl.
    by destruct (bool_decide (s = "")). }
  unfold is_skipped, is_processed. by rewrite Hf.
Qed.

Lemma contains_app (sub s pre post : string) :
  Py.contains sub s = true → Py.contains sub (pre +:+ s +:+ post) = true.
Proof.
  rewrite !contains_spec. intros (pre' & post' & ->).
  exists (pre +:+ pre'), (post' +:+ post). by rewrite !str_app_assoc.
Qed.

(** X16.  A type that contains a skipped type is skipped: wrapping the
    type of a column, as in [Nullable(...)], does not bring a skipped
    column back. *)
Theorem X16_wrapped_skip_types_stay_skipped (type_ pre post : string) :
  has_skip_type type_ = true →
  has_skip_type (pre +:+ type_ +:+ post) = true.
Proof.
  unfold has_skip_type. rewrite !existsb_exists.
  intros (skip_type & Hin & Hc). exists skip_type.
  split; [done | by apply contains_app].
Qed.

Lemma skip_records_filter (columns_info : list (string * string * list string)) :
  skip_records columns_info
  = map (λ row, (INFO, Uuml +:+ "berspringe Spalte mit ung" +:+ uuml
                       +:+ "ltigem Datentyp: " +:+ row.1.1 +:+ ": "
                       +:+ row.1.2))
      (List.filter (λ row, negb (bool_decide (row.1.1 = "date"))
                           && has_skip_type row.1.2) columns_info).
Proof.
  induction columns_info as [|[[column type_] rest] info IH]; [done|].
  cbn [skip_records flat_map List.filter]. fold (skip_records info).
  rewrite IH. unfold retained. cbn [fst snd].
  destruct (negb (bool_decide (column = "date"))), (has_skip_type type_); done.
Qed.

(** X17.  [get_columns_and_types] keeps the order of the description:
    the pairs it returns are a sublist of the described pairs.  It sends
    the one [DESCRIBE] statement and logs one record for each described
    column that is not [date] and has a skipped type, in order; the
    [date] column is dropped without a record. *)
Theorem X17_columns_keep_order_and_skips_are_logged (client : Client V)
    (db_name table_name : string) (st : RunState)
    (columns_info : list (string * string * list string)) :
  let describe := "DESCRIBE TABLE " +:+ db_name +:+ "." +:+ table_name in
  describe_table client (queries st) describe = Answer columns_info →
  ∃ columns types st',
    get_columns_and_types client db_name table_name st
    = (Ok (columns, types), st')
    ∧ zip columns types
      `sublist_of` map (λ row, (row.1.1, row.1.2)) columns_info
    ∧ queries st' = queries st ++ [describe]
    ∧ log_records st'
      = log_records st
        ++ map (λ row, (INFO, Uuml +:+ "berspringe Spalte mit ung" +:+ uuml
                              +:+ "ltigem Datentyp: " +:+ row.1.1 +:+ ": "
                              +:+ row.1.2))
             (List.filter (λ row, negb (bool_decide (row.1.1 = "date"))
                                  && has_skip_type row.1.2) columns_info).
Proof.
  intros describe Hd. eexists _, _, _.
  split; [by apply get_columns_and_types_run|]. split_and!.
  - rewrite zip_map_same. apply (fmap_sublist (λ row, (row.1.1, row.1.2))).
    clear Hd. induction columns_info as [|row info IH]; [done|].
    cbn [List.filter]. destruct (retained row);
      [by apply sublist_skip | by apply sublist_cons].
  - done.
  - simpl. by rewrite skip_records_filter.
Qed.

End MoreSelection.

(** ** The further properties on the sample database *)

Section MoreSamples.

Local Abbreviation sample := (Demo.client "b" Demo.rows).

Lemma sample_responsive : responsive sample.
Proof. repeat split; intros; by eexists. Defined.

(** X3 on the sample database. *)
Lemma X3_responsive_database_completes_witness :
  ∃ st',
    script Demo.str_Z Demo.str_Z Demo.str_Z Demo.engine (Answer sample) 42
      "db" 2 None true initial_state = (Ok (), st')
    ∧ last (log_records st') = Some (INFO, dashes).
Proof.
  destruct (X3_responsive_database_completes Demo.str_Z Demo.str_Z Demo.str_Z
              Demo.engine sample 42 "db" 2 None true initial_state
              sample_responsive) as (st' & Hrun & _ & Hlast).
  exists st'. split; [exact Hrun | exact Hlast].
Defined.

(** X4 on the three tables of the sample database. *)
Lemma X4_completed_loop_accounts_for_every_table_witness :
  let tables := ["bucket_sales"; "orders"; "bucket_forecast_sales"] in
  let st' := (process_tables Demo.str_Z Demo.str_Z Demo.engine sample "db" 2
                TablesNone true tables initial_state).2 in
  skipped_tables st' = ["bucket_forecast_sales"]
  ∧ new_tables st' ++ updated_tables st' ≡ₚ ["bucket_sales"; "orders"].
Proof.
  intros tables st'.
  destruct (X4_completed_loop_accounts_for_every_table Demo.str_Z Demo.str_Z
              Demo.engine sample "db" 2 TablesNone true tables initial_state
              st') as (Hk & Hnu & _).
  - by vm_compute.
  - split; [exact Hk | exact Hnu].
Defined.

(** X5 on a client that cannot describe the one selected table. *)
Lemma X5_client_error_aborts_the_run_witness :
  exit_status
    (script Demo.str_Z Demo.str_Z Demo.str_Z Demo.engine
       (Answer Faulty.no_describe) 42 "db" 2 (Some "bucket_sales,orders") true
       initial_state).1 = 1.
Proof.
  set (s0 := (logging INFO
                "Verbindung zur ClickHouse Datenbank erfolgreich hergestellt"
                initial_state).2).
  apply (X5_client_error_aborts_the_run Demo.str_Z Demo.str_Z Demo.str_Z
           Demo.engine Faulty.no_describe 42 "db" 2
           (Some "bucket_sales,orders") true [] ["orders"] "bucket_sales"
           "unknown table" initial_state s0 s0); reflexivity.
Defined.

(** X6 on a client that accepts the drop and refuses the create. *)
Lemma X6_failed_create_after_drop_witness :
  ∃ st',
    create_forecast_table Faulty.drops_only "db" "bucket_sales" ["a"]
      ["Float64"] initial_state = (Raise (Exception "read-only"), st')
    ∧ lists st' = lists initial_state.
Proof.
  destruct (X6_failed_create_after_drop Faulty.drops_only "db" "bucket_sales"
              ["a"] ["Float64"] initial_state "read-only")
    as (st' & Hrun & _ & Hl); [reflexivity..|].
  exists st'. split; [exact Hrun | exact Hl].
Defined.

(** X7 on a client that refuses the insert. *)
Lemma X7_failed_insert_witness :
  ∃ st',
    forecast_table Demo.str_Z Demo.str_Z Demo.engine Faulty.drops_only "db"
      "bucket_sales" 2 true initial_state
    = (Raise (Exception "read-only"), st')
    ∧ successful_tables st' = []
    ∧ failed_tables st' = ["bucket_sales"].
Proof.
  set (st1 := (get_columns_and_types Faulty.drops_only "db" "bucket_sales"
                 initial_state).2).
  set (st2 := (client_query (select_rows Faulty.drops_only)
                 "SELECT date, a, b FROM db.bucket_sales ORDER BY date"
                 st1).2).
  set (loop := forecast_columns Demo.engine "bucket_sales" ["a"; "b"]
                 Demo.rows 12 2 true ["a"; "b"] [] st2).
  destruct (X7_failed_insert Demo.str_Z Demo.str_Z Demo.engine
              Faulty.drops_only "db" "bucket_sales" 2 true initial_state
              st1 st2 loop.2 ["a"; "b"] ["Float64"; "Int32"] 10 [1; 2]
              [(12, [3; 4]); (11, [5; 6])]
              (collected Demo.engine ["a"; "b"] Demo.rows 12 2 true
                 ["a"; "b"] [])
              ("('13', 113, NULL, 103, NULL, 123, NULL), "
               +:+ "('14', 114, NULL, 104, NULL, 124, NULL)")
              "read-only")
    as (st' & Hrun & _ & Hs & Hf).
  - reflexivity.
  - reflexivity.
  - unfold loop. by rewrite forecast_columns_run.
  - by vm_compute.
  - by vm_compute.
  - reflexivity.
  - exists st'. split_and!; [exact Hrun|exact Hs|]. rewrite Hf. by vm_compute.
Defined.

(** X9 on the tables [orders] and [bucket_orders]. *)
Lemma X9_two_sources_one_forecast_table_witness :
  create_forecast_table_name "db" "bucket_orders"
  = create_forecast_table_name "db" "orders".
Proof. apply (X9_two_sources_one_forecast_table "db" "orders"). reflexivity. Defined.

(** X10 on the sample engine, starting from one bound date. *)
Lemma X10_rows_stay_distinct_and_in_place_witness :
  let fd : ForecastData Z := [(14, {["date" := CDate 14]})] in
  ∃ fd' st',
    forecast_columns Demo.engine "bucket_sales" ["a"; "b"] Demo.rows 12 2 true
      ["a"; "b"] fd initial_state = (Ok fd', st')
    ∧ NoDup fd'.*1
    ∧ fd.*1 `prefix_of` fd'.*1.
Proof.
  intros fd.
  apply (X10_rows_stay_distinct_and_in_place Demo.engine "bucket_sales"
           ["a"; "b"] Demo.rows 12 2 true ["a"; "b"] fd initial_state).
  apply NoDup_singleton.
Defined.

(** X11 on two new dates after one bound date. *)
Lemma X11_new_dates_follow_the_forecast_witness :
  let fd : ForecastData Z := [(12, {["date" := CDate 12]})] in
  (merge_points "a" [mkPoint 14 114 104 124; mkPoint 13 113 103 123] fd).*1
  = [12; 14; 13].
Proof.
  intros fd.
  apply (X11_new_dates_follow_the_forecast "a"
           [mkPoint 14 114 104 124; mkPoint 13 113 103 123] fd).
  apply (bool_decide_unpack _). by vm_compute.
Defined.

(** X12 on the sample engine with the one column it can forecast. *)
Lemma X12_complete_rows_have_every_field_witness :
  ∃ fd st' row,
    forecast_columns Demo.engine "bucket_sales" ["a"; "b"] Demo.rows 12 2 true
      ["a"] [] initial_state = (Ok fd, st')
    ∧ failed_tables st' = failed_tables initial_state
    ∧ (13, row) ∈ fd
    ∧ ∀ key, key ∈ field_names ["a"] → is_Some (row !! key).
Proof.
  apply (X12_complete_rows_have_every_field Demo.engine "bucket_sales"
           ["a"; "b"] Demo.rows 12 2 true ["a"] 13 initial_state).
  - discriminate.
  - intros col ->%list_elem_of_singleton.
    exists [mkPoint 13 113 103 123; mkPoint 14 114 104 124].
    split; [reflexivity | by left].
Defined.

(** X14 on a selection of two names. *)
Lemma X14_selection_string_is_split_at_commas_witness :
  select_tables sample "db" (TablesStr "bucket_sales,orders") initial_state
  = (Ok ["bucket_sales"; "orders"], initial_state).
Proof.
  apply (X14_selection_string_is_split_at_commas sample "db"
           "bucket_sales,orders" initial_state).
  discriminate.
Defined.

(** X15 on a forecast table named on the command line. *)
Lemma X15_command_line_never_filters_witness :
  filtered_out (command_line_tables (Some "orders,bucket_forecast_x"))
    "bucket_forecast_x" = false.
Proof.
  apply (X15_command_line_never_filters sample "db"
           (Some "orders,bucket_forecast_x") initial_state initial_state
           ["orders"; "bucket_forecast_x"] "bucket_forecast_x").
  - reflexivity.
  - right. by left.
Defined.

(** X16 on a nullable string column. *)
Lemma X16_wrapped_skip_types_stay_skipped_witness :
  has_skip_type ("Nullable(" +:+ "String" +:+ ")") = true.
Proof.
  apply (X16_wrapped_skip_types_stay_skipped "String" "Nullable(" ")").
  reflexivity.
Defined.

(** X17 on the description of the sample table. *)
Lemma X17_columns_keep_order_and_skips_are_logged_witness :
  ∃ columns types st',
    get_columns_and_types sample "db" "bucket_sales" initial_state
    = (Ok (columns, types), st')
    ∧ zip columns types
      `sublist_of` [("date", "Date"); ("a", "Float64");
                    ("name", "Nullable(String)"); ("b", "Int32")]
    ∧ length (log_records st') = 1%nat.
Proof.
  destruct (X17_columns_keep_order_and_skips_are_logged sample "db"
              "bucket_sales" initial_state (Demo.describe_rows "b"))
    as (columns & types & st' & Hrun & Hsub & _ & Hlog); [reflexivity|].
  exists columns, types, st'. split_and!; [exact Hrun|exact Hsub|].
  rewrite Hlog. reflexivity.
Defined.

End MoreSamples.
